(** * fhttp: lazy decompression of response bodies (decompress.go)

    A shallow embedding of [DecompressBody] and of the five lazy reader
    types of decompress.go, together with the parts of Go's [io] and
    [bytes] packages that the deflate branch goes through
    ([io.ReadFull], [io.MultiReader], [bytes.Reader], [io.NopCloser]).

    Conventions.
    - A Go [Read(p)] with [len(p) = n] is a function of [n] that returns the
      bytes it stored in [p] and the error, next to the new state of the
      reader.
    - Every call that leaves the package (a read or close of the
      transport's stream, a constructor, read or close of a codec) is
      recorded as an [event]; a computation returns its value together
      with the events it emitted, in order.
    - The codecs are external libraries: they are a parameter of the
      development (class [Codecs]). *)

From Stdlib Require Import ZArith List Lia Bool.
From Stdlib Require Import Strings.Byte.
From stdpp Require Import base option list gmap strings.

Set Implicit Arguments.
Local Open Scope list_scope.

(** ** Errors, read results, events *)

(** Go [error] values that occur here: the sentinels of package [io] and
    any other error, identified by its message. *)
Inductive error : Type :=
| EOF
| ErrUnexpectedEOF
| ErrShortBuffer
| ErrOther (msg : string).

(** [err == io.EOF], for an [err] that may be nil. *)
Definition is_EOF (e : option error) : bool :=
  match e with
  | Some EOF => true
  | _ => false
  end.

(** What [Read] returns: the bytes stored in [p] (so [n] is their number)
    and the error ([None] is nil). *)
Definition rres : Type := list byte * option error.

Inductive codec_id : Type := KGzip | KBrotli | KZlib | KFlate | KZstd.

Inductive event : Type :=
| ESrcRead (n : nat)                  (* Read on the transport's stream, len(p) = n *)
| ESrcClose                           (* Close on the transport's stream *)
| ENew (k : codec_id)                 (* gzip.NewReader, brotli.NewReader, ... *)
| EDecRead (k : codec_id) (n : nat)   (* Read on a constructed decoder *)
| EDecClose (k : codec_id).           (* Close on a constructed decoder *)

(** What a call that may panic does. *)
Inductive outcome (A : Type) : Type :=
| Returned (a : A)
| Panicked (msg : string).
Arguments Panicked {A} msg.

(** ** Computations with a log of external calls *)

Definition M (A : Type) : Type := (A * list event)%type.

Definition ret {A} (a : A) : M A := (a, []).

Definition bind {A B} (m : M A) (f : A -> M B) : M B :=
  let (a, t1) := m in
  let (b, t2) := f a in
  (b, t1 ++ t2).

Definition tell (t : list event) : M unit := (tt, t).

Notation "'let*' p ':=' m 'in' k" := (bind m (fun x => match x with p => k end))
  (at level 10, p pattern, m at level 100, k at level 200).

(** A reader over states of type [B]: [Read(p)] with [len(p) = n]. *)
Definition reader (B : Type) : Type := nat -> B -> M (rres * B).

(** A closer over states of type [B]. *)
Definition closer (B : Type) : Type := B -> M (outcome (option error) * B).

(** ** Codecs

    A codec only gets an [io.Reader]: all it can do with the stream it
    decodes is read from it. Its operations are therefore programs whose
    only effect is a read of that stream. *)
Inductive prog (A : Type) : Type :=
| Ret (a : A)
| Rd (n : nat) (k : rres -> prog A).
Arguments Ret {A} a.
Arguments Rd {A} n k.

Fixpoint run {A B} (rd : reader B) (p : prog A) (b : B) : M (A * B) :=
  match p with
  | Ret a => ret (a, b)
  | Rd n k => let* (res, b') := rd n b in run rd (k res) b'
  end.

(** A decoder type of a codec library: its state, its [Read] and its
    [Close]. None of the libraries closes the stream it reads from. *)
Record decoder : Type := {
  dec : Type;
  dec_Read : nat -> dec -> prog (rres * dec);
  dec_Close : dec -> option error * dec
}.

(** The five constructors used by decompress.go. [brotli.NewReader] and
    [flate.NewReader] return no error. *)
Class Codecs : Type := {
  gzip : decoder;
  gzip_NewReader : prog (dec gzip + error);
  brotli : decoder;
  brotli_NewReader : prog (dec brotli);
  zlib : decoder;
  zlib_NewReader : prog (dec zlib + error);
  flate : decoder;
  flate_NewReader : prog (dec flate);
  zstd : decoder;
  zstd_NewReader : prog (dec zstd + error)
}.

(** ** The transport's stream

    The body a response arrives with. Its behaviour is a script: each
    entry is what one [Read] hands out, bytes and maybe an error; a [Read]
    with a buffer shorter than the entry takes a prefix of it. When the
    script is over, [Read] returns [fin]. *)
Record source : Type := {
  script : list (list byte * option error);
  fin : error;
  close_err : option error
}.

Definition source_Read : reader source := fun n s =>
  let* _ := tell [ESrcRead n] in
  match script s with
  | [] => ret (([], Some (fin s)), s)
  | (c, e) :: rest =>
      if length c <=? n
      then ret ((c, e), {| script := rest; fin := fin s; close_err := close_err s |})
      else ret ((firstn n c, None),
                {| script := (skipn n c, e) :: rest; fin := fin s; close_err := close_err s |})
  end.

Definition source_Close : closer source := fun s =>
  let* _ := tell [ESrcClose] in ret (Returned (close_err s), s).

(** ** Package io and bytes *)

(** [bytes.Reader]: a slice and the read index. *)
Record bytes_Reader : Type := { s : list byte; i : nat }.

Definition bytes_NewReader (b : list byte) : bytes_Reader := {| s := b; i := 0 |}.

(** func (r *Reader) Read(b []byte) (n int, err error) *)
Definition bytes_Reader_Read : reader bytes_Reader := fun n r =>
  if length (s r) <=? i r then ret (([], Some EOF), r)
  else
    let out := firstn n (skipn (i r) (s r)) in
    ret ((out, None), {| s := s r; i := i r + length out |}).

(** [io.MultiReader(a, b)]: [mr.readers] is [[a; b]], then [[b]], then
    empty. *)
Inductive multiReader (B : Type) : Type :=
| MR2 (a : bytes_Reader) (b : B)
| MR1 (b : B)
| MR0.
Arguments MR0 {B}.

(** func (mr *multiReader) Read(p []byte) (n int, err error): the loop
    over [mr.readers], unrolled for the two readers. A reader that
    returns io.EOF is dropped; its EOF is passed on only when no reader
    is left, and the loop goes on to the next reader only after
    [(0, io.EOF)]. (The flattening of a lone nested multiReader does not
    apply: the second reader is a response body, an io.ReadCloser, which a
    multiReader is not.) *)
Definition multiReader_Read1 {B} (rd : reader B) (n : nat) (b : B) : M (rres * multiReader B) :=
  let* ((bs, e), b') := rd n b in
  if is_EOF e
  then ret ((bs, Some EOF), MR0)
  else ret ((bs, e), MR1 b').

Definition multiReader_Read {B} (rd : reader B) : reader (multiReader B) := fun n mr =>
  match mr with
  | MR2 a b =>
      let* ((bs, e), a') := bytes_Reader_Read n a in
      if is_EOF e
      then
        if (0 <? length bs)
        then ret ((bs, None), MR1 b)
        else multiReader_Read1 rd n b
      else ret ((bs, e), MR2 a' b)
  | MR1 b => multiReader_Read1 rd n b
  | MR0 => ret (([], Some EOF), MR0)
  end.

(** [io.NopCloser]: Close returns nil and closes nothing. *)
Definition NopCloser_Close {B} : closer B := fun b => ret (Returned None, b).

(** The final adjustment of [io.ReadAtLeast]. *)
Definition ReadAtLeast_result (min : nat) (acc : list byte) (e : option error) : rres :=
  if min <=? length acc then (acc, None)
  else if (0 <? length acc) && is_EOF e then (acc, Some ErrUnexpectedEOF)
  else (acc, e).

(** The loop of [io.ReadAtLeast], [for n < min && err == nil], entered
    with [err == nil]; [acc] is [buf[:n]]. Nothing bounds the number of
    rounds when the reader keeps returning [(0, nil)]: [fuel] counts the
    calls of [Read], and [None] says that they were all used up. *)
Fixpoint ReadAtLeast_loop {B} (fuel : nat) (rd : reader B) (len min : nat)
    (acc : list byte) (b : B) : M (option (rres * B)) :=
  if min <=? length acc then ret (Some (ReadAtLeast_result min acc None, b))
  else
    match fuel with
    | O => ret None
    | S fuel' =>
        let* ((bs, e), b') := rd (len - length acc) b in
        match e with
        | None => ReadAtLeast_loop fuel' rd len min (acc ++ bs) b'
        | Some _ => ret (Some (ReadAtLeast_result min (acc ++ bs) e, b'))
        end
    end.

(** func ReadAtLeast(r Reader, buf []byte, min int) (n int, err error),
    for a buffer of length [len]. *)
Definition io_ReadAtLeast {B} (fuel : nat) (rd : reader B) (len min : nat) (b : B)
    : M (option (rres * B)) :=
  if len <? min then ret (Some (([], Some ErrShortBuffer), b))
  else ReadAtLeast_loop fuel rd len min [] b.

(** func ReadFull(r Reader, buf []byte) (n int, err error) *)
Definition io_ReadFull {B} (fuel : nat) (rd : reader B) (len : nat) (b : B)
    : M (option (rres * B)) :=
  io_ReadAtLeast fuel rd len len b.

(** ** The lazy readers of decompress.go *)

(** The five reader types have the same three fields: the wrapped body,
    the decoder (nil until the first Read) and the recorded error. *)
Record lazy (B D : Type) : Type := {
  body : B;
  r : option D;
  err : option error
}.

Section Decompress.

Context {C : Codecs}.

Definition gzipReader (B : Type) : Type := lazy B (dec gzip).
Definition brReader (B : Type) : Type := lazy B (dec brotli).
Definition zlibDeflateReader (B : Type) : Type := lazy B (dec zlib).
Definition deflateReader (B : Type) : Type := lazy B (dec flate).
Definition zstdReader (B : Type) : Type := lazy B (dec zstd).

(** A call [X.NewReader(body)] of codec [k]: logged, then run against the
    body. *)
Definition call_New {B A} (k : codec_id) (rd : reader B) (new : prog A) (b : B) : M (A * B) :=
  let* _ := tell [ENew k] in run rd new b.

(** A call [x.r.Read(p)] on a constructed decoder of codec [k]. *)
Definition call_Read {B} (k : codec_id) (D : decoder) (rd : reader B) (n : nat)
    (d : dec D) (b : B) : M ((rres * dec D) * B) :=
  let* _ := tell [EDecRead k n] in run rd (dec_Read D n d) b.

(** A call [x.r.Close()] on a constructed decoder of codec [k]. *)
Definition call_Close (k : codec_id) (D : decoder) (d : dec D) : M (option error * dec D) :=
  let* _ := tell [EDecClose k] in ret (dec_Close D d).

(** func (gz *gzipReader) Read(p []byte) (n int, err error) *)
Definition gzipReader_Read {B} (rd : reader B) : reader (gzipReader B) := fun n gz =>
  match err gz with
  | Some e => ret (([], Some e), gz)
  | None =>
      match r gz with
      | None =>
          let* (res, b1) := call_New KGzip rd gzip_NewReader (body gz) in
          match res with
          | inr e => ret (([], Some e), {| body := b1; r := None; err := Some e |})
          | inl d =>
              let* ((out, d'), b2) := call_Read KGzip gzip rd n d b1 in
              ret (out, {| body := b2; r := Some d'; err := None |})
          end
      | Some d =>
          let* ((out, d'), b1) := call_Read KGzip gzip rd n d (body gz) in
          ret (out, {| body := b1; r := Some d'; err := None |})
      end
  end.

(** func (gz *gzipReader) Close() error *)
Definition gzipReader_Close {B} (cl : closer B) : closer (gzipReader B) := fun gz =>
  let* (o, b1) := cl (body gz) in
  ret (o, {| body := b1; r := r gz; err := err gz |}).

(** func (br *brReader) Read(p []byte) (n int, err error) *)
Definition brReader_Read {B} (rd : reader B) : reader (brReader B) := fun n br =>
  match err br with
  | Some e => ret (([], Some e), br)
  | None =>
      match r br with
      | None =>
          let* (d, b1) := call_New KBrotli rd brotli_NewReader (body br) in
          let* ((out, d'), b2) := call_Read KBrotli brotli rd n d b1 in
          ret (out, {| body := b2; r := Some d'; err := None |})
      | Some d =>
          let* ((out, d'), b1) := call_Read KBrotli brotli rd n d (body br) in
          ret (out, {| body := b1; r := Some d'; err := None |})
      end
  end.

(** func (br *brReader) Close() error *)
Definition brReader_Close {B} (cl : closer B) : closer (brReader B) := fun br =>
  let* (o, b1) := cl (body br) in
  ret (o, {| body := b1; r := r br; err := err br |}).

(** func (z *zlibDeflateReader) Read(p []byte) (n int, err error) *)
Definition zlibDeflateReader_Read {B} (rd : reader B) : reader (zlibDeflateReader B) := fun n z =>
  match err z with
  | Some e => ret (([], Some e), z)
  | None =>
      match r z with
      | None =>
          let* (res, b1) := call_New KZlib rd zlib_NewReader (body z) in
          match res with
          | inr e => ret (([], Some e), {| body := b1; r := None; err := Some e |})
          | inl d =>
              let* ((out, d'), b2) := call_Read KZlib zlib rd n d b1 in
              ret (out, {| body := b2; r := Some d'; err := None |})
          end
      | Some d =>
          let* ((out, d'), b1) := call_Read KZlib zlib rd n d (body z) in
          ret (out, {| body := b1; r := Some d'; err := None |})
      end
  end.

(** func (z *zlibDeflateReader) Close() error: [z.r.Close()], a method
    call on the interface value [z.r], which panics when [z.r] is nil. *)
Definition zlibDeflateReader_Close {B} : closer (zlibDeflateReader B) := fun z =>
  match r z with
  | None => ret (Panicked "invalid memory address or nil pointer dereference"%string, z)
  | Some d =>
      let* (e, d') := call_Close KZlib zlib d in
      ret (Returned e, {| body := body z; r := Some d'; err := err z |})
  end.

(** func (dr *deflateReader) Read(p []byte) (n int, err error) *)
Definition deflateReader_Read {B} (rd : reader B) : reader (deflateReader B) := fun n dr =>
  match err dr with
  | Some e => ret (([], Some e), dr)
  | None =>
      match r dr with
      | None =>
          let* (d, b1) := call_New KFlate rd flate_NewReader (body dr) in
          let* ((out, d'), b2) := call_Read KFlate flate rd n d b1 in
          ret (out, {| body := b2; r := Some d'; err := None |})
      | Some d =>
          let* ((out, d'), b1) := call_Read KFlate flate rd n d (body dr) in
          ret (out, {| body := b1; r := Some d'; err := None |})
      end
  end.

(** func (dr *deflateReader) Close() error: [dr.r.Close()], as for
    zlibDeflateReader. *)
Definition deflateReader_Close {B} : closer (deflateReader B) := fun dr =>
  match r dr with
  | None => ret (Panicked "invalid memory address or nil pointer dereference"%string, dr)
  | Some d =>
      let* (e, d') := call_Close KFlate flate d in
      ret (Returned e, {| body := body dr; r := Some d'; err := err dr |})
  end.

(** func (z *zstdReader) Read(p []byte) (n int, err error) *)
Definition zstdReader_Read {B} (rd : reader B) : reader (zstdReader B) := fun n z =>
  match err z with
  | Some e => ret (([], Some e), z)
  | None =>
      match r z with
      | None =>
          let* (res, b1) := call_New KZstd rd zstd_NewReader (body z) in
          match res with
          | inr e => ret (([], Some e), {| body := b1; r := None; err := Some e |})
          | inl d =>
              let* ((out, d'), b2) := call_Read KZstd zstd rd n d b1 in
              ret (out, {| body := b2; r := Some d'; err := None |})
          end
      | Some d =>
          let* ((out, d'), b1) := call_Read KZstd zstd rd n d (body z) in
          ret (out, {| body := b1; r := Some d'; err := None |})
      end
  end.

(** func (z *zstdReader) Close() error *)
Definition zstdReader_Close {B} (cl : closer B) : closer (zstdReader B) := fun z =>
  let* (o, b1) := cl (body z) in
  ret (o, {| body := b1; r := r z; err := err z |}).

(** ** Response bodies

    A body is an interface value: a dynamic type and a value of it. The
    dynamic types that occur are the transport's stream and what
    [DecompressBody] builds on top of a body. *)
Inductive shape : Type :=
| TSource
| TNopCloserMulti (inner : shape)   (* io.NopCloser(io.MultiReader(bytes.NewReader(_), inner)) *)
| TGzip (inner : shape)             (* *gzipReader *)
| TBr (inner : shape)               (* *brReader *)
| TZlibDeflate (inner : shape)      (* *zlibDeflateReader *)
| TDeflate (inner : shape)          (* *deflateReader *)
| TZstd (inner : shape).            (* *zstdReader *)

Fixpoint state (sh : shape) : Type :=
  match sh with
  | TSource => source
  | TNopCloserMulti inner => multiReader (state inner)
  | TGzip inner => gzipReader (state inner)
  | TBr inner => brReader (state inner)
  | TZlibDeflate inner => zlibDeflateReader (state inner)
  | TDeflate inner => deflateReader (state inner)
  | TZstd inner => zstdReader (state inner)
  end.

(** Method [Read] of a body, by its dynamic type. *)
Fixpoint Read (sh : shape) : reader (state sh) :=
  match sh return reader (state sh) with
  | TSource => source_Read
  | TNopCloserMulti inner => multiReader_Read (Read inner)
  | TGzip inner => gzipReader_Read (Read inner)
  | TBr inner => brReader_Read (Read inner)
  | TZlibDeflate inner => zlibDeflateReader_Read (Read inner)
  | TDeflate inner => deflateReader_Read (Read inner)
  | TZstd inner => zstdReader_Read (Read inner)
  end.

(** Method [Close] of a body, by its dynamic type. *)
Fixpoint Close (sh : shape) : closer (state sh) :=
  match sh return closer (state sh) with
  | TSource => source_Close
  | TNopCloserMulti inner => NopCloser_Close
  | TGzip inner => gzipReader_Close (Close inner)
  | TBr inner => brReader_Close (Close inner)
  | TZlibDeflate inner => zlibDeflateReader_Close
  | TDeflate inner => deflateReader_Close
  | TZstd inner => zstdReader_Close (Close inner)
  end.

Definition ReadCloser : Type := { sh : shape & state sh }.

(** ** Response *)

(** Modelled from the spec: the header mapping of a response (type Header
    and its methods Get and Del are declared outside decompress.go). A
    key maps to its values; Get returns the first value of the key, or the
    empty string; Del removes the entry of the key. The two keys used
    here, Content-Encoding and Content-Length, are in canonical form
    already. *)
Definition Header_Get (h : gmap string (list string)) (key : string) : string :=
  match h !! key with
  | Some (v :: _) => v
  | _ => ""%string
  end.

Definition Header_Del (h : gmap string (list string)) (key : string) : gmap string (list string) :=
  delete key h.

(** Modelled from the spec: the fields of Response that DecompressBody
    uses (the type is declared outside decompress.go). *)
Record Response : Type := {
  Header : gmap string (list string);
  Body : ReadCloser;
  Uncompressed : bool;
  ContentLength : Z
}.

Definition zlibMethodDeflate : byte := x78.
Definition zlibLevelDefault : byte := x9c.
Definition zlibLevelLow : byte := x01.
Definition zlibLevelMedium : byte := x5e.
Definition zlibLevelBest : byte := xda.

(** [res.Body = x], the other fields as they are. *)
Definition set_Body (res : Response) (x : ReadCloser) : Response :=
  {| Header := Header res; Body := x;
     Uncompressed := Uncompressed res; ContentLength := ContentLength res |}.

(** Lines 49 to 52 of decompress.go, reached from the cases gzip, br and
    zstd. *)
Definition after_switch (res : Response) : Response :=
  {| Header := Header_Del (Header_Del (Header res) "Content-Encoding") "Content-Length";
     Body := Body res;
     Uncompressed := true;
     ContentLength := (-1)%Z |}.

(** The deflate case after a successful [io.ReadFull]: [header] is the
    two-byte array. *)
Definition deflate_wrap (res : Response) (sh : shape) (b : state sh) (header : list byte)
    : Response :=
  let h0 := nth 0 header x00 in
  let h1 := nth 1 header x00 in
  let mr : state (TNopCloserMulti sh) := MR2 (bytes_NewReader header) b in
  if Byte.eqb h0 zlibMethodDeflate
     && (Byte.eqb h1 zlibLevelDefault || Byte.eqb h1 zlibLevelLow
         || Byte.eqb h1 zlibLevelMedium || Byte.eqb h1 zlibLevelBest)
  then set_Body res (existT (TZlibDeflate (TNopCloserMulti sh))
                            {| body := mr; r := None; err := None |})
  else if Byte.eqb h0 zlibMethodDeflate
  then set_Body res (existT (TDeflate (TNopCloserMulti sh))
                            {| body := mr; r := None; err := None |})
  else set_Body res (existT (TNopCloserMulti sh) mr).

(** func DecompressBody(res *Response). The response is updated in
    place; here the updated response is returned. [None]: the loop of
    [io.ReadFull] did not end within [fuel] calls of Read. *)
Definition DecompressBody (fuel : nat) (res : Response) : M (option Response) :=
  let ce := Header_Get (Header res) "Content-Encoding" in
  let 'existT sh b := Body res in
  if String.eqb ce "gzip" then
    ret (Some (after_switch
      (set_Body res (existT (TGzip sh) {| body := b; r := None; err := None |}))))
  else if String.eqb ce "br" then
    ret (Some (after_switch
      (set_Body res (existT (TBr sh) {| body := b; r := None; err := None |}))))
  else if String.eqb ce "deflate" then
    let* o := io_ReadFull fuel (Read sh) 2 b in
    match o with
    | None => ret None
    | Some ((_, Some _), b1) => ret (Some (set_Body res (existT sh b1)))
    | Some ((bs, None), b1) =>
        ret (Some (deflate_wrap res sh b1 (firstn 2 (bs ++ [x00; x00]))))
    end
  else if String.eqb ce "zstd" then
    ret (Some (after_switch
      (set_Body res (existT (TZstd sh) {| body := b; r := None; err := None |}))))
  else ret (Some res).

End Decompress.

(** ** Reading on

    [read_seq rd ns w]: one Read per element of [ns], with that buffer
    length, one after the other. *)
Fixpoint read_seq {W} (rd : reader W) (ns : list nat) (w : W) : M (list rres * W) :=
  match ns with
  | [] => ret ([], w)
  | n :: ns' =>
      let* (x, w1) := rd n w in
      let* (xs, w2) := read_seq rd ns' w1 in
      ret (x :: xs, w2)
  end.

(** Reading to exhaustion with buffers of length [n]: Read until an error
    comes back (io.EOF at the end of the stream); the bytes of all calls
    and that error. [fuel] bounds the number of calls. *)
Fixpoint drain {B} (fuel : nat) (rd : reader B) (n : nat) (b : B) : M (option (rres * B)) :=
  match fuel with
  | O => ret None
  | S fuel' =>
      let* ((bs, e), b1) := rd n b in
      match e with
      | Some _ => ret (Some ((bs, e), b1))
      | None =>
          let* o := drain fuel' rd n b1 in
          match o with
          | Some ((bs', e'), b2) => ret (Some ((bs ++ bs', e'), b2))
          | None => ret None
          end
      end
  end.

(** All the bytes a transport stream still has to hand out. *)
Definition content (s0 : source) : list byte := concat (map fst (script s0)).

Definition codec_id_eqb (a b : codec_id) : bool :=
  match a, b with
  | KGzip, KGzip | KBrotli, KBrotli | KZlib, KZlib | KFlate, KFlate | KZstd, KZstd => true
  | _, _ => false
  end.

(** The calls of codec [k]'s constructor in a log. *)
Definition is_New (k : codec_id) (e : event) : bool :=
  match e with
  | ENew k' => codec_id_eqb k k'
  | _ => false
  end.

Definition count_New (k : codec_id) (t : list event) : nat :=
  length (List.filter (is_New k) t).

Definition is_SrcClose (e : event) : bool :=
  match e with ESrcClose => true | _ => false end.

(** ** The five readers, side by side *)

(** The Read methods of gzipReader, zlibDeflateReader and zstdReader are
    one text up to the codec, and so are those of brReader and
    deflateReader: here is that text, for a constructor that may fail and
    for one that may not. *)
Definition lazy_Read_fallible {B} (k : codec_id) (D : decoder) (new : prog (dec D + error))
    (rd : reader B) : reader (lazy B (dec D)) := fun n w =>
  match err w with
  | Some e => ret (([], Some e), w)
  | None =>
      match r w with
      | None =>
          let* (res, b1) := call_New k rd new (body w) in
          match res with
          | inr e => ret (([], Some e), {| body := b1; r := None; err := Some e |})
          | inl d =>
              let* ((out, d'), b2) := call_Read k D rd n d b1 in
              ret (out, {| body := b2; r := Some d'; err := None |})
          end
      | Some d =>
          let* ((out, d'), b1) := call_Read k D rd n d (body w) in
          ret (out, {| body := b1; r := Some d'; err := None |})
      end
  end.

Definition lazy_Read_total {B} (k : codec_id) (D : decoder) (new : prog (dec D))
    (rd : reader B) : reader (lazy B (dec D)) := fun n w =>
  match err w with
  | Some e => ret (([], Some e), w)
  | None =>
      match r w with
      | None =>
          let* (d, b1) := call_New k rd new (body w) in
          let* ((out, d'), b2) := call_Read k D rd n d b1 in
          ret (out, {| body := b2; r := Some d'; err := None |})
      | Some d =>
          let* ((out, d'), b1) := call_Read k D rd n d (body w) in
          ret (out, {| body := b1; r := Some d'; err := None |})
      end
  end.

(** The Read methods of the five lazy readers over a body read by [rd],
    each with its codec. *)
Inductive lazy_reader {C : Codecs} {B} (rd : reader B)
  : forall D : decoder, codec_id -> reader (lazy B (dec D)) -> Prop :=
| LR_gzip : lazy_reader rd gzip KGzip (gzipReader_Read rd)
| LR_br : lazy_reader rd brotli KBrotli (brReader_Read rd)
| LR_zlib : lazy_reader rd zlib KZlib (zlibDeflateReader_Read rd)
| LR_deflate : lazy_reader rd flate KFlate (deflateReader_Read rd)
| LR_zstd : lazy_reader rd zstd KZstd (zstdReader_Read rd).

(** Those whose constructor returns an error, with the constructor. *)
Inductive fallible_reader {C : Codecs} {B} (rd : reader B)
  : forall D : decoder, codec_id -> prog (dec D + error) -> reader (lazy B (dec D)) -> Prop :=
| FR_gzip : fallible_reader rd gzip KGzip gzip_NewReader (gzipReader_Read rd)
| FR_zlib : fallible_reader rd zlib KZlib zlib_NewReader (zlibDeflateReader_Read rd)
| FR_zstd : fallible_reader rd zstd KZstd zstd_NewReader (zstdReader_Read rd).

(** A reader as DecompressBody makes it: no decoder, no error. *)
Definition fresh {B D} (b : B) : lazy B D := {| body := b; r := None; err := None |}.

(** A body whose Read constructs no decoder of codec [k]. *)
Definition quiet {B} (k : codec_id) (rd : reader B) : Prop :=
  forall n b, count_New k (snd (rd n b)) = 0.

(** Past its first Read a lazy reader has a decoder or an error. *)
Definition started {B D} (w : lazy B D) : Prop := r w <> None \/ err w <> None.

(** The calls of Read on a decoder of codec [k] in a log. *)
Definition is_DecRead (k : codec_id) (e : event) : bool :=
  match e with
  | EDecRead k' _ => codec_id_eqb k k'
  | _ => false
  end.

Definition count_DecRead (k : codec_id) (t : list event) : nat :=
  length (List.filter (is_DecRead k) t).

(** A body whose Read calls no decoder of codec [k]. *)
Definition silent {B} (k : codec_id) (rd : reader B) : Prop :=
  forall n b, count_DecRead k (snd (rd n b)) = 0.

(** The readers whose constructor returns no error, with the
    constructor. *)
Inductive total_reader {C : Codecs} {B} (rd : reader B)
  : forall D : decoder, codec_id -> prog (dec D) -> reader (lazy B (dec D)) -> Prop :=
| TR_br : total_reader rd brotli KBrotli brotli_NewReader (brReader_Read rd)
| TR_deflate : total_reader rd flate KFlate flate_NewReader (deflateReader_Read rd).

(** A reader never holds a decoder and an error at once. *)
Definition consistent {B D} (w : lazy B D) : Prop := r w = None \/ err w = None.

(** A reader that holds a decoder and no error. *)
Definition ready {B D} (w : lazy B D) : Prop := r w <> None /\ err w = None.

(** After a Read a reader has a decoder and no error, or an error and no
    decoder. *)
Definition settled_after_Read {B D} (w : lazy B D) : Prop :=
  ready w \/ (r w = None /\ err w <> None).

(** The state a computation ends in, and its log. *)
Definition state_after {A W} (m : M (A * W)) : W := snd (fst m).
Definition log_of {A} (m : M A) : list event := snd m.

(** ** A small instance of the codecs, to run the model

    Decoders that hand on what they read; constructors that read two
    bytes and accept the stream when the first is the expected one. *)
Definition passthrough : decoder :=
  {| dec := unit;
     dec_Read := fun n d => Rd n (fun res => Ret (res, d));
     dec_Close := fun d => (None, d) |}.

Definition magic_NewReader (m : byte) (msg : string) : prog (dec passthrough + error) :=
  Rd 2 (fun res =>
    match fst res with
    | b0 :: _ => if Byte.eqb b0 m then Ret (inl tt) else Ret (inr (ErrOther msg))
    | [] => Ret (inr (ErrOther msg))
    end).

Definition toy : Codecs :=
  {| gzip := passthrough;
     gzip_NewReader := magic_NewReader x1f "gzip: invalid header";
     brotli := passthrough;
     brotli_NewReader := Ret tt;
     zlib := passthrough;
     zlib_NewReader := magic_NewReader x78 "zlib: invalid header";
     flate := passthrough;
     flate_NewReader := Ret tt;
     zstd := passthrough;
     zstd_NewReader := magic_NewReader x28 "magic number mismatch" |}.

(** The second bytes that the deflate case takes for a zlib header. *)
Definition zlib_levels : list byte :=
  [zlibLevelDefault; zlibLevelLow; zlibLevelMedium; zlibLevelBest].

(** A transport stream that hands out [chunks] one per Read, then io.EOF. *)
Definition stream_of (chunks : list (list byte)) : source :=
  {| script := map (fun c => (c, None)) chunks; fin := EOF; close_err := None |}.

(** A response with the given Content-Encoding and a Content-Length, over
    a transport stream. *)
Definition response_of {C : Codecs} (ce : string) (s0 : source) : Response :=
  {| Header := <["Content-Encoding"%string := [ce]]>
                 (<["Content-Length"%string := ["42"%string]]> ∅);
     Body := existT TSource s0;
     Uncompressed := false;
     ContentLength := 42 |}.

(** * Properties *)

Section Properties.

Context {C : Codecs}.

Ltac mred := unfold bind, ret, tell; simpl.

Lemma bind_ret_l A B (a : A) (f : A -> M B) : bind (ret a) f = f a.
Proof. unfold bind, ret. destruct (f a). reflexivity. Qed.

Lemma bind_ret_r A (m : M A) : bind m ret = m.
Proof. unfold bind, ret. destruct m. rewrite app_nil_r. reflexivity. Qed.

(** ** io.ReadFull *)

Lemma ReadAtLeast_result_nil min acc e bs :
  ReadAtLeast_result min acc (Some e) = (bs, None) -> bs = acc /\ min <= length acc.
Proof.
  unfold ReadAtLeast_result.
  destruct (Nat.leb_spec min (length acc)) as [Hle | Hlt].
  - intros [= <-]. split; [reflexivity | exact Hle].
  - destruct (0 <? length acc); simpl; [destruct e; simpl |]; discriminate.
Qed.

Lemma ReadAtLeast_loop_nil B (rd : reader B) len min :
  forall fuel acc b bs b1 t,
    ReadAtLeast_loop fuel rd len min acc b = (Some ((bs, None), b1), t) ->
    min <= length bs.
Proof.
  induction fuel as [| fuel IH]; intros acc b bs b1 t; simpl.
  - destruct (Nat.leb_spec min (length acc)) as [Hle | Hlt]; [| discriminate].
    unfold ReadAtLeast_result. apply Nat.leb_le in Hle as Hb. rewrite Hb.
    intros [= <- _ _]. exact Hle.
  - destruct (Nat.leb_spec min (length acc)) as [Hle | Hlt].
    + unfold ReadAtLeast_result. apply Nat.leb_le in Hle as Hb. rewrite Hb.
      intros [= <- _ _]. exact Hle.
    + unfold bind. destruct (rd (len - length acc) b) as [[[cs e] b'] t1].
      destruct e as [e |].
      * simpl. intros [= Hres _ _].
        apply ReadAtLeast_result_nil in Hres as [-> Hle]. exact Hle.
      * destruct (ReadAtLeast_loop fuel rd len min (acc ++ cs) b') as [o t2] eqn:Hrec.
        intros [= -> _]. eapply IH. exact Hrec.
Qed.

(** A peek that succeeds has filled the buffer. *)
Lemma io_ReadFull_nil B (rd : reader B) fuel len b bs b1 t :
  io_ReadFull fuel rd len b = (Some ((bs, None), b1), t) -> len <= length bs.
Proof.
  unfold io_ReadFull, io_ReadAtLeast. rewrite Nat.ltb_irrefl.
  apply ReadAtLeast_loop_nil.
Qed.

Lemma header_of_peek (bs : list byte) :
  2 <= length bs ->
  exists h0 h1, firstn 2 (bs ++ [x00; x00]) = [h0; h1] /\ firstn 2 bs = [h0; h1].
Proof.
  destruct bs as [| h0 [| h1 bs]]; simpl; try lia.
  intros _. exists h0, h1. split; reflexivity.
Qed.

Lemma ReadAtLeast_loop_full B (rd : reader B) fuel len min acc b :
  min <= length acc ->
  ReadAtLeast_loop fuel rd len min acc b = (Some ((acc, None), b), []).
Proof.
  intros Hle. apply Nat.leb_le in Hle.
  destruct fuel; simpl; unfold ReadAtLeast_result; rewrite Hle; reflexivity.
Qed.

(** On a transport stream the loop of io.ReadAtLeast ends: every round
    uses up an entry of the script or fills the buffer. *)
Lemma ReadAtLeast_loop_source len min :
  min <= len ->
  forall fuel s0 acc,
    length (script s0) < fuel ->
    length acc <= len ->
    exists x, fst (ReadAtLeast_loop fuel source_Read len min acc s0) = Some x.
Proof.
  intros Hmin.
  induction fuel as [| fuel IH]; intros s0 acc Hfuel Hacc; [lia |].
  simpl. destruct (min <=? length acc); [eexists; reflexivity |].
  unfold bind.
  destruct (source_Read (len - length acc) s0) as [[[cs e] s1] t1] eqn:Hrd.
  destruct e as [e |]; [eexists; reflexivity |].
  assert (Hnext : min <= length (acc ++ cs)
                  \/ (length (script s1) < fuel /\ length (acc ++ cs) <= len)).
  { unfold source_Read in Hrd. destruct s0 as [sc f ce]. simpl in *.
    destruct sc as [| [c e] rest]; [discriminate |].
    revert Hrd. mred.
    destruct (Nat.leb_spec (length c) (len - length acc)) as [Hc | Hc];
      intros Heq; inversion Heq; subst; rewrite length_app.
    - right. simpl in *. lia.
    - left. rewrite length_firstn. lia. }
  destruct Hnext as [Hfull | [Hs1 Hlen]].
  - rewrite ReadAtLeast_loop_full by exact Hfull. eexists; reflexivity.
  - destruct (IH s1 (acc ++ cs) Hs1 Hlen) as [x Hx].
    destruct (ReadAtLeast_loop fuel source_Read len min (acc ++ cs) s1) as [o t2].
    simpl in *. eauto.
Qed.

Lemma io_ReadFull_source fuel len s0 :
  length (script s0) < fuel ->
  exists x, fst (io_ReadFull fuel source_Read len s0) = Some x.
Proof.
  intros Hfuel. unfold io_ReadFull, io_ReadAtLeast. rewrite Nat.ltb_irrefl.
  apply ReadAtLeast_loop_source; simpl; lia.
Qed.

(** ** DecompressBody *)

Lemma String_eqb_false (a b : string) : a <> b -> String.eqb a b = false.
Proof. intros H. apply String.eqb_neq. exact H. Qed.

(** The switch of DecompressBody, case by case. *)
Lemma DecompressBody_gzip fuel res sh (b : state sh) :
  Header_Get (Header res) "Content-Encoding" = "gzip"%string ->
  Body res = existT sh b ->
  DecompressBody fuel res =
    ret (Some (after_switch
      (set_Body res (existT (TGzip sh) {| body := b; r := None; err := None |})))).
Proof. intros Hce Hb. unfold DecompressBody. rewrite Hce, Hb. reflexivity. Qed.

Lemma DecompressBody_br fuel res sh (b : state sh) :
  Header_Get (Header res) "Content-Encoding" = "br"%string ->
  Body res = existT sh b ->
  DecompressBody fuel res =
    ret (Some (after_switch
      (set_Body res (existT (TBr sh) {| body := b; r := None; err := None |})))).
Proof. intros Hce Hb. unfold DecompressBody. rewrite Hce, Hb. reflexivity. Qed.

Lemma DecompressBody_zstd fuel res sh (b : state sh) :
  Header_Get (Header res) "Content-Encoding" = "zstd"%string ->
  Body res = existT sh b ->
  DecompressBody fuel res =
    ret (Some (after_switch
      (set_Body res (existT (TZstd sh) {| body := b; r := None; err := None |})))).
Proof. intros Hce Hb. unfold DecompressBody. rewrite Hce, Hb. reflexivity. Qed.

Lemma DecompressBody_deflate fuel res sh (b : state sh) :
  Header_Get (Header res) "Content-Encoding" = "deflate"%string ->
  Body res = existT sh b ->
  DecompressBody fuel res =
    let* o := io_ReadFull fuel (Read sh) 2 b in
    match o with
    | None => ret None
    | Some ((_, Some _), b1) => ret (Some (set_Body res (existT sh b1)))
    | Some ((bs, None), b1) =>
        ret (Some (deflate_wrap res sh b1 (firstn 2 (bs ++ [x00; x00]))))
    end.
Proof. intros Hce Hb. unfold DecompressBody. rewrite Hce, Hb. reflexivity. Qed.

Lemma after_switch_fields res :
  Header (after_switch res) !! "Content-Encoding"%string = None
  /\ Header (after_switch res) !! "Content-Length"%string = None
  /\ Uncompressed (after_switch res) = true
  /\ ContentLength (after_switch res) = (-1)%Z.
Proof.
  unfold after_switch, Header_Del. simpl. repeat split.
  - rewrite lookup_delete_ne by discriminate. apply lookup_delete_eq.
  - apply lookup_delete_eq.
Qed.

Lemma byte_eqb_eq (x y : byte) : Byte.eqb x y = true <-> x = y.
Proof. split; [apply Byte.byte_dec_bl | apply Byte.byte_dec_lb]. Qed.

Lemma level_test (h1 : byte) :
  (Byte.eqb h1 zlibLevelDefault || Byte.eqb h1 zlibLevelLow
   || Byte.eqb h1 zlibLevelMedium || Byte.eqb h1 zlibLevelBest) = true
  <-> In h1 zlib_levels.
Proof.
  unfold zlib_levels. simpl. rewrite !orb_true_iff, !byte_eqb_eq.
  intuition congruence.
Qed.

Lemma deflate_wrap_zlib res sh (b : state sh) h0 h1 :
  h0 = zlibMethodDeflate -> In h1 zlib_levels ->
  deflate_wrap res sh b [h0; h1] =
    set_Body res (existT (TZlibDeflate (TNopCloserMulti sh))
      {| body := MR2 (bytes_NewReader [h0; h1]) b; r := None; err := None |}).
Proof.
  intros -> Hin. apply level_test in Hin. unfold deflate_wrap. simpl nth.
  rewrite Hin. reflexivity.
Qed.

Lemma deflate_wrap_raw res sh (b : state sh) h0 h1 :
  h0 = zlibMethodDeflate -> ~ In h1 zlib_levels ->
  deflate_wrap res sh b [h0; h1] =
    set_Body res (existT (TDeflate (TNopCloserMulti sh))
      {| body := MR2 (bytes_NewReader [h0; h1]) b; r := None; err := None |}).
Proof.
  intros -> Hin. unfold deflate_wrap. simpl nth.
  destruct (_ || _) eqn:Hl; [apply level_test in Hl; contradiction |].
  reflexivity.
Qed.

Lemma deflate_wrap_none res sh (b : state sh) h0 h1 :
  h0 <> zlibMethodDeflate ->
  deflate_wrap res sh b [h0; h1] =
    set_Body res (existT (TNopCloserMulti sh) (MR2 (bytes_NewReader [h0; h1]) b)).
Proof.
  intros Hne. unfold deflate_wrap. simpl nth.
  destruct (Byte.eqb h0 zlibMethodDeflate) eqn:H0; [apply byte_eqb_eq in H0; contradiction |].
  reflexivity.
Qed.

(** The deflate case changes nothing but the body. *)
Lemma deflate_wrap_frame res sh (b : state sh) header :
  Header (deflate_wrap res sh b header) = Header res
  /\ Uncompressed (deflate_wrap res sh b header) = Uncompressed res
  /\ ContentLength (deflate_wrap res sh b header) = ContentLength res.
Proof.
  unfold deflate_wrap.
  destruct (_ && _); [| destruct (Byte.eqb _ _)]; repeat split.
Qed.

(** What the deflate case does after a peek that succeeded. *)
Lemma DecompressBody_deflate_peek fuel res sh (b : state sh) bs b1 t :
  Header_Get (Header res) "Content-Encoding" = "deflate"%string ->
  Body res = existT sh b ->
  io_ReadFull fuel (Read sh) 2 b = (Some ((bs, None), b1), t) ->
  exists h0 h1,
    firstn 2 bs = [h0; h1] /\
    let rebuilt : state (TNopCloserMulti sh) := MR2 (bytes_NewReader [h0; h1]) b1 in
    (h0 = x78 -> In h1 [x9c; x01; x5e; xda] ->
       DecompressBody fuel res =
         (Some (set_Body res (existT (TZlibDeflate (TNopCloserMulti sh))
                  {| body := rebuilt; r := None; err := None |})), t))
    /\ (h0 = x78 -> ~ In h1 [x9c; x01; x5e; xda] ->
       DecompressBody fuel res =
         (Some (set_Body res (existT (TDeflate (TNopCloserMulti sh))
                  {| body := rebuilt; r := None; err := None |})), t))
    /\ (h0 <> x78 ->
       DecompressBody fuel res =
         (Some (set_Body res (existT (TNopCloserMulti sh) rebuilt)), t)).
Proof.
  intros Hce Hb Hpeek.
  destruct (header_of_peek bs (io_ReadFull_nil _ _ _ _ Hpeek)) as (h0 & h1 & Hhdr & Htake).
  exists h0, h1. split; [exact Htake |].
  rewrite (DecompressBody_deflate fuel res Hce Hb), Hpeek.
  unfold bind, ret. rewrite Hhdr, app_nil_r.
  repeat split; intros.
  - rewrite deflate_wrap_zlib; auto.
  - rewrite deflate_wrap_raw; auto.
  - rewrite deflate_wrap_none; auto.
Qed.

(** C1. Content-Encoding deflate, and the peek of two bytes succeeds with
    bytes [h0], [h1]. DecompressBody returns a response [res'] whose
    header, Uncompressed flag and ContentLength are those it was given and
    whose Body field is read off here: the rebuilt body is
    [io.NopCloser(io.MultiReader(r, body))] with [r] a bytes.Reader over
    [[h0; h1]] at index 0 and [body] the original body as the peek left
    it; with [h0 = 0x78] and [h1] one of 0x9C, 0x01, 0x5E, 0xDA the Body
    is a zlibDeflateReader around the rebuilt body; with [h0 = 0x78] and
    another [h1] it is a deflateReader around it; with [h0 <> 0x78] it
    is the rebuilt body itself, no decoder attached. The reader has
    neither a decoder nor an error yet. *)
Theorem deflate_disambiguation fuel res sh (b : state sh) bs b1 t :
  Header_Get (Header res) "Content-Encoding" = "deflate"%string ->
  Body res = existT sh b ->
  io_ReadFull fuel (Read sh) 2 b = (Some ((bs, None), b1), t) ->
  exists h0 h1 res',
    firstn 2 bs = [h0; h1]
    /\ DecompressBody fuel res = (Some res', t)
    /\ Header res' = Header res
    /\ Uncompressed res' = Uncompressed res
    /\ ContentLength res' = ContentLength res
    /\ let rebuilt : state (TNopCloserMulti sh) := MR2 {| s := [h0; h1]; i := 0 |} b1 in
       (h0 = x78 -> In h1 [x9c; x01; x5e; xda] ->
          Body res' = existT (TZlibDeflate (TNopCloserMulti sh))
                        {| body := rebuilt; r := None; err := None |})
       /\ (h0 = x78 -> ~ In h1 [x9c; x01; x5e; xda] ->
          Body res' = existT (TDeflate (TNopCloserMulti sh))
                        {| body := rebuilt; r := None; err := None |})
       /\ (h0 <> x78 ->
          Body res' = existT (TNopCloserMulti sh) rebuilt).
Proof.
  intros Hce Hb Hpeek.
  destruct (DecompressBody_deflate_peek fuel res Hce Hb Hpeek)
    as (h0 & h1 & Htake & Hz & Hr & Hn).
  exists h0, h1.
  destruct (Byte.byte_eq_dec h0 x78) as [H0 | H0].
  - destruct (in_dec Byte.byte_eq_dec h1 [x9c; x01; x5e; xda]) as [Hin | Hout].
    + eexists. split; [exact Htake |]. split; [exact (Hz H0 Hin) |].
      repeat split; intros; (reflexivity || contradiction).
    + eexists. split; [exact Htake |]. split; [exact (Hr H0 Hout) |].
      repeat split; intros; (reflexivity || contradiction).
  - eexists. split; [exact Htake |]. split; [exact (Hn H0) |].
    repeat split; intros; (reflexivity || contradiction).
Qed.

(** C2. Content-Encoding gzip, br or zstd: DecompressBody returns a
    response without the entries Content-Encoding and Content-Length, with
    Uncompressed set and ContentLength -1. *)
Theorem wrap_normalizes fuel res :
  Header_Get (Header res) "Content-Encoding" = "gzip"%string
  \/ Header_Get (Header res) "Content-Encoding" = "br"%string
  \/ Header_Get (Header res) "Content-Encoding" = "zstd"%string ->
  exists res' t,
    DecompressBody fuel res = (Some res', t)
    /\ Header res' !! "Content-Encoding"%string = None
    /\ Header res' !! "Content-Length"%string = None
    /\ Uncompressed res' = true
    /\ ContentLength res' = (-1)%Z.
Proof.
  destruct (Body res) as [sh b] eqn:Hb.
  intros [Hce | [Hce | Hce]].
  - rewrite (DecompressBody_gzip fuel res Hce Hb).
    eexists _, _. split; [reflexivity | apply after_switch_fields].
  - rewrite (DecompressBody_br fuel res Hce Hb).
    eexists _, _. split; [reflexivity | apply after_switch_fields].
  - rewrite (DecompressBody_zstd fuel res Hce Hb).
    eexists _, _. split; [reflexivity | apply after_switch_fields].
Qed.

(** C3. Content-Encoding deflate: DecompressBody returns exactly when the
    peek does, and the response it returns has the header entries, the
    Uncompressed flag and ContentLength of the response it was given,
    whichever decoder was attached: lines 49 to 52 are not reached. *)
Theorem deflate_skips_normalization fuel res :
  Header_Get (Header res) "Content-Encoding" = "deflate"%string ->
  (let 'existT sh b := Body res in
   fst (DecompressBody fuel res) = None <-> fst (io_ReadFull fuel (Read sh) 2 b) = None)
  /\ forall res' t,
       DecompressBody fuel res = (Some res', t) ->
       Header res' = Header res
       /\ Uncompressed res' = Uncompressed res
       /\ ContentLength res' = ContentLength res.
Proof.
  intros Hce. destruct (Body res) as [sh b] eqn:Hb.
  rewrite (DecompressBody_deflate fuel res Hce Hb).
  unfold bind, ret.
  destruct (io_ReadFull fuel (Read sh) 2 b) as [[[[bs [e |]] b1] |] t1]; simpl.
  - split; [split; discriminate |]. intros res' t [= <- _]. repeat split.
  - split; [split; discriminate |]. intros res' t [= <- _].
    apply deflate_wrap_frame.
  - split; [split; reflexivity |]. discriminate.
Qed.

(** C4. Content-Encoding none of gzip, br, deflate, zstd (absent
    included, which reads as the empty string): DecompressBody returns
    the response it was given, and calls nothing. *)
Theorem unrecognized_is_noop fuel res :
  Header_Get (Header res) "Content-Encoding" <> "gzip"%string ->
  Header_Get (Header res) "Content-Encoding" <> "br"%string ->
  Header_Get (Header res) "Content-Encoding" <> "deflate"%string ->
  Header_Get (Header res) "Content-Encoding" <> "zstd"%string ->
  DecompressBody fuel res = (Some res, []).
Proof.
  intros Hg Hb Hd Hz. unfold DecompressBody.
  destruct (Body res) as [sh b].
  rewrite (String_eqb_false Hg), (String_eqb_false Hb),
    (String_eqb_false Hd), (String_eqb_false Hz).
  reflexivity.
Qed.

(** C8. Content-Encoding deflate, and the peek of two bytes fails with an
    error: DecompressBody returns, the error is dropped, and the
    response is the one it was given, its body the same stream (in the
    state the failed peek left it in), with no reader around it. *)
Theorem deflate_peek_failure fuel res sh (b : state sh) bs e b1 t :
  Header_Get (Header res) "Content-Encoding" = "deflate"%string ->
  Body res = existT sh b ->
  io_ReadFull fuel (Read sh) 2 b = (Some ((bs, Some e), b1), t) ->
  exists res',
    DecompressBody fuel res = (Some res', t)
    /\ Body res' = existT sh b1
    /\ Header res' = Header res
    /\ Uncompressed res' = Uncompressed res
    /\ ContentLength res' = ContentLength res.
Proof.
  intros Hce Hb Hpeek.
  rewrite (DecompressBody_deflate fuel res Hce Hb), Hpeek.
  unfold bind, ret. rewrite app_nil_r.
  eexists. split; [reflexivity |]. repeat split.
Qed.

(** ** The lazy readers *)

Lemma fallible_reader_form B (rd : reader B) D k new rdw :
  fallible_reader rd D k new rdw -> rdw = lazy_Read_fallible k D new rd.
Proof. destruct 1; reflexivity. Qed.

Lemma lazy_reader_form B (rd : reader B) D k rdw :
  lazy_reader rd D k rdw ->
  (exists new, rdw = lazy_Read_fallible k D new rd)
  \/ (exists new, rdw = lazy_Read_total k D new rd).
Proof.
  destruct 1; [left | right | left | right | left]; eexists; reflexivity.
Qed.

Lemma lazy_reader_sticky B (rd : reader B) D k rdw :
  lazy_reader rd D k rdw ->
  forall n w e, err w = Some e -> rdw n w = ret (([], Some e), w).
Proof.
  intros Hv n w e He.
  destruct (lazy_reader_form Hv) as [[new ->] | [new ->]];
    unfold lazy_Read_fallible, lazy_Read_total; rewrite He; reflexivity.
Qed.

Lemma read_seq_fixed W (rdw : reader W) (w : W) (x : rres) :
  (forall n, rdw n w = ret (x, w)) ->
  forall ns, read_seq rdw ns w = ret (replicate (length ns) x, w).
Proof.
  intros Hfix. induction ns as [| n ns IH]; simpl; [reflexivity |].
  rewrite Hfix. unfold bind, ret in *. rewrite IH. reflexivity.
Qed.

Lemma count_New_app k t1 t2 : count_New k (t1 ++ t2) = count_New k t1 + count_New k t2.
Proof. unfold count_New. rewrite List.filter_app, length_app. reflexivity. Qed.

Lemma codec_id_eqb_refl k : codec_id_eqb k k = true.
Proof. destruct k; reflexivity. Qed.

Lemma count_New_one k : count_New k [ENew k] = 1.
Proof. unfold count_New. simpl. rewrite codec_id_eqb_refl. reflexivity. Qed.

Lemma run_quiet B (rd : reader B) k :
  quiet k rd -> forall A (p : prog A) b, count_New k (snd (run rd p b)) = 0.
Proof.
  intros Hq A p. induction p as [a | n cont IH]; intros b; simpl; [reflexivity |].
  unfold bind. specialize (Hq n b).
  destruct (rd n b) as [[res b1] t1]. specialize (IH res b1).
  destruct (run rd (cont res) b1) as [[a b2] t2]. simpl in *.
  rewrite count_New_app. lia.
Qed.

Lemma call_Read_quiet B (rd : reader B) k D n d b :
  quiet k rd -> count_New k (snd (call_Read k D rd n d b)) = 0.
Proof.
  intros Hq. unfold call_Read, bind, tell.
  pose proof (run_quiet Hq (dec_Read D n d) b) as Hr.
  destruct (run rd (dec_Read D n d) b) as [[x b1] t1]. simpl in *. exact Hr.
Qed.

Lemma call_New_once B (rd : reader B) k A (new : prog A) b :
  quiet k rd -> count_New k (snd (call_New k rd new b)) = 1.
Proof.
  intros Hq. unfold call_New, bind, tell.
  pose proof (run_quiet Hq new b) as Hr.
  destruct (run rd new b) as [[x b1] t1]. simpl in *.
  change (ENew k :: t1) with ([ENew k] ++ t1).
  rewrite count_New_app, count_New_one, Hr. reflexivity.
Qed.

Lemma fallible_first B (rd : reader B) k D new n b :
  quiet k rd ->
  count_New k (snd (lazy_Read_fallible k D new rd n (fresh b))) = 1
  /\ started (snd (fst (lazy_Read_fallible k D new rd n (fresh b)))).
Proof.
  intros Hq. unfold lazy_Read_fallible, fresh. simpl. unfold bind at 1.
  pose proof (call_New_once new b Hq) as Hn.
  destruct (call_New k rd new b) as [[[d | e] b1] t1]; simpl in *.
  - unfold bind, ret. pose proof (call_Read_quiet D n d b1 Hq) as Hr.
    destruct (call_Read k D rd n d b1) as [[[out d'] b2] t2]. simpl in *.
    rewrite count_New_app, count_New_app, Hn, Hr. simpl.
    split; [reflexivity | left; discriminate].
  - rewrite app_nil_r. split; [exact Hn | right; discriminate].
Qed.

Lemma total_first B (rd : reader B) k D new n b :
  quiet k rd ->
  count_New k (snd (lazy_Read_total k D new rd n (fresh b))) = 1
  /\ started (snd (fst (lazy_Read_total k D new rd n (fresh b)))).
Proof.
  intros Hq. unfold lazy_Read_total, fresh. simpl. unfold bind at 1.
  pose proof (call_New_once new b Hq) as Hn.
  destruct (call_New k rd new b) as [[d b1] t1]; simpl in *.
  unfold bind, ret. pose proof (call_Read_quiet D n d b1 Hq) as Hr.
  destruct (call_Read k D rd n d b1) as [[[out d'] b2] t2]. simpl in *.
  rewrite count_New_app, count_New_app, Hn, Hr. simpl.
  split; [reflexivity | left; discriminate].
Qed.

Lemma fallible_next B (rd : reader B) k D new n (w : lazy B (dec D)) :
  quiet k rd -> started w ->
  count_New k (snd (lazy_Read_fallible k D new rd n w)) = 0
  /\ started (snd (fst (lazy_Read_fallible k D new rd n w))).
Proof.
  intros Hq Hs. unfold lazy_Read_fallible.
  destruct (err w) as [e |] eqn:He; simpl; [split; [reflexivity | exact Hs] |].
  destruct (r w) as [d |] eqn:Hr; [| destruct Hs; congruence].
  unfold bind, ret. pose proof (call_Read_quiet D n d (body w) Hq) as Hc.
  destruct (call_Read k D rd n d (body w)) as [[[out d'] b2] t2]. simpl in *.
  rewrite count_New_app, Hc. split; [reflexivity | left; discriminate].
Qed.

Lemma total_next B (rd : reader B) k D new n (w : lazy B (dec D)) :
  quiet k rd -> started w ->
  count_New k (snd (lazy_Read_total k D new rd n w)) = 0
  /\ started (snd (fst (lazy_Read_total k D new rd n w))).
Proof.
  intros Hq Hs. unfold lazy_Read_total.
  destruct (err w) as [e |] eqn:He; simpl; [split; [reflexivity | exact Hs] |].
  destruct (r w) as [d |] eqn:Hr; [| destruct Hs; congruence].
  unfold bind, ret. pose proof (call_Read_quiet D n d (body w) Hq) as Hc.
  destruct (call_Read k D rd n d (body w)) as [[[out d'] b2] t2]. simpl in *.
  rewrite count_New_app, Hc. split; [reflexivity | left; discriminate].
Qed.

Lemma read_seq_started W (rdw : reader W) (P : W -> Prop) k :
  (forall n w, P w -> count_New k (snd (rdw n w)) = 0 /\ P (snd (fst (rdw n w)))) ->
  forall ns w, P w -> count_New k (snd (read_seq rdw ns w)) = 0.
Proof.
  intros Hstep. induction ns as [| n ns IH]; intros w Hw; simpl; [reflexivity |].
  unfold bind, ret. destruct (Hstep n w Hw) as [Hc Hp].
  destruct (rdw n w) as [[x w1] t1]. simpl in *. specialize (IH w1 Hp).
  destruct (read_seq rdw ns w1) as [[xs w2] t2]. simpl in *.
  rewrite !count_New_app, Hc, IH. reflexivity.
Qed.

Lemma read_seq_once W (rdw : reader W) (P : W -> Prop) k n ns w :
  (forall n w, P w -> count_New k (snd (rdw n w)) = 0 /\ P (snd (fst (rdw n w)))) ->
  count_New k (snd (rdw n w)) = 1 -> P (snd (fst (rdw n w))) ->
  count_New k (snd (read_seq rdw (n :: ns) w)) = 1.
Proof.
  intros Hstep H1 Hp. simpl. unfold bind, ret.
  destruct (rdw n w) as [[x w1] t1]. simpl in *.
  pose proof (@read_seq_started W rdw P k Hstep ns w1 Hp) as Hrest.
  destruct (read_seq rdw ns w1) as [[xs w2] t2]. simpl in *.
  rewrite !count_New_app, H1, Hrest. reflexivity.
Qed.

Lemma source_Read_quiet k : quiet k source_Read.
Proof.
  intros n [sc f ce]. unfold source_Read. simpl.
  destruct sc as [| [c e] rest]; [reflexivity |].
  unfold bind, tell, ret. simpl. destruct (length c <=? n); reflexivity.
Qed.

(** C5. For the readers whose constructor returns an error (gzip, zlib,
    zstd): when the constructor, called by the first Read, fails with
    [e], that Read returns [(0, e)], and every later Read returns
    [(0, e)], leaves the reader as it is and calls nothing, the
    constructor included. For all five readers (the constructors of
    brReader and deflateReader have no error result): a reader with a
    recorded error [e] answers every Read with [(0, e)] in that way. *)
Theorem construction_error_is_sticky B (rd : reader B) :
  (forall D k new rdw, fallible_reader rd D k new rdw ->
     forall b e b1 t n,
       run rd new b = ((inr e, b1), t) ->
       let failed := {| body := b1; r := None; err := Some e |} in
       rdw n (fresh b) = ((([], Some e), failed), ENew k :: t)
       /\ forall ns,
            read_seq rdw ns failed = ((replicate (length ns) ([], Some e), failed), []))
  /\ (forall D k rdw, lazy_reader rd D k rdw ->
        forall (w : lazy B (dec D)) e ns,
          err w = Some e ->
          read_seq rdw ns w = ((replicate (length ns) ([], Some e), w), [])).
Proof.
  split.
  - intros D k new rdw Hv b e b1 t n Hnew failed.
    rewrite (fallible_reader_form Hv). split.
    + unfold lazy_Read_fallible, fresh, call_New. simpl.
      unfold bind, tell, ret. rewrite Hnew. simpl. rewrite app_nil_r. reflexivity.
    + intros ns. apply read_seq_fixed. intros m. reflexivity.
  - intros D k rdw Hv w e ns He.
    apply read_seq_fixed. intros m. apply (lazy_reader_sticky Hv). exact He.
Qed.

(** C6. Each of the five readers, over a body that constructs no decoder
    of the reader's codec itself: the first Read on the reader as
    DecompressBody made it calls the constructor once, and over that Read
    and any later ones the constructor is called once in all. And for
    Content-Encoding gzip, br or zstd DecompressBody returns, calls
    nothing (no Read of the body, no constructor) and leaves the body as
    it was inside a reader without decoder and without error. *)
Theorem decoder_constructed_once :
  (forall B (rd : reader B) D k rdw, lazy_reader rd D k rdw -> quiet k rd ->
     forall b n ns,
       count_New k (snd (rdw n (fresh b))) = 1
       /\ count_New k (snd (read_seq rdw (n :: ns) (fresh b))) = 1)
  /\ (forall fuel res sh (b : state sh), Body res = existT sh b ->
        (Header_Get (Header res) "Content-Encoding" = "gzip"%string ->
           exists res', DecompressBody fuel res = (Some res', [])
                        /\ Body res' = existT (TGzip sh) (fresh b))
        /\ (Header_Get (Header res) "Content-Encoding" = "br"%string ->
           exists res', DecompressBody fuel res = (Some res', [])
                        /\ Body res' = existT (TBr sh) (fresh b))
        /\ (Header_Get (Header res) "Content-Encoding" = "zstd"%string ->
           exists res', DecompressBody fuel res = (Some res', [])
                        /\ Body res' = existT (TZstd sh) (fresh b))).
Proof.
  split.
  - intros B rd D k rdw Hv Hq b n ns.
    destruct (lazy_reader_form Hv) as [[new ->] | [new ->]].
    + destruct (fallible_first D new n b Hq) as [H1 Hs]. split; [exact H1 |].
      apply read_seq_once with (P := started); [| exact H1 | exact Hs].
      intros m w Hw. apply fallible_next; assumption.
    + destruct (total_first D new n b Hq) as [H1 Hs]. split; [exact H1 |].
      apply read_seq_once with (P := started); [| exact H1 | exact Hs].
      intros m w Hw. apply total_next; assumption.
  - intros fuel res sh b Hb. repeat split; intros Hce.
    + rewrite (DecompressBody_gzip fuel res Hce Hb). eexists. split; reflexivity.
    + rewrite (DecompressBody_br fuel res Hce Hb). eexists. split; reflexivity.
    + rewrite (DecompressBody_zstd fuel res Hce Hb). eexists. split; reflexivity.
Qed.

(** C9. Close on a gzipReader, brReader or zstdReader, in every state:
    it is Close on the wrapped body, with its result and its calls (on a
    transport stream: the one call ESrcClose), and the decoder field is
    left alone. Close on a zlibDeflateReader or deflateReader that has a
    decoder: the one call is Close on that decoder, whose result is
    returned, and the wrapped body is left alone; in no state does it
    call Close on the transport stream. *)
Theorem close_asymmetry :
  (forall sh (w : gzipReader (state sh)),
     Close (TGzip sh) w =
       (let '((o, b1), t) := Close sh (body w) in
        ((o, {| body := b1; r := r w; err := err w |}), t)))
  /\ (forall sh (w : brReader (state sh)),
     Close (TBr sh) w =
       (let '((o, b1), t) := Close sh (body w) in
        ((o, {| body := b1; r := r w; err := err w |}), t)))
  /\ (forall sh (w : zstdReader (state sh)),
     Close (TZstd sh) w =
       (let '((o, b1), t) := Close sh (body w) in
        ((o, {| body := b1; r := r w; err := err w |}), t)))
  /\ (forall w : gzipReader source,
        Close (TGzip TSource) w = ((Returned (close_err (body w)), w), [ESrcClose]))
  /\ (forall w : brReader source,
        Close (TBr TSource) w = ((Returned (close_err (body w)), w), [ESrcClose]))
  /\ (forall w : zstdReader source,
        Close (TZstd TSource) w = ((Returned (close_err (body w)), w), [ESrcClose]))
  /\ (forall sh (w : zlibDeflateReader (state sh)) d, r w = Some d ->
        Close (TZlibDeflate sh) w =
          ((Returned (fst (dec_Close zlib d)),
            {| body := body w; r := Some (snd (dec_Close zlib d)); err := err w |}),
           [EDecClose KZlib]))
  /\ (forall sh (w : deflateReader (state sh)) d, r w = Some d ->
        Close (TDeflate sh) w =
          ((Returned (fst (dec_Close flate d)),
            {| body := body w; r := Some (snd (dec_Close flate d)); err := err w |}),
           [EDecClose KFlate]))
  /\ (forall sh (w : zlibDeflateReader (state sh)),
        List.filter is_SrcClose (snd (Close (TZlibDeflate sh) w)) = [])
  /\ (forall sh (w : deflateReader (state sh)),
        List.filter is_SrcClose (snd (Close (TDeflate sh) w)) = []).
Proof.
  repeat apply conj; intros.
  - change (Close (TGzip sh) w) with (gzipReader_Close (Close sh) w).
    unfold gzipReader_Close, bind, ret.
    destruct (Close sh (body w)) as [[o b1] t]. simpl. rewrite app_nil_r. reflexivity.
  - change (Close (TBr sh) w) with (brReader_Close (Close sh) w).
    unfold brReader_Close, bind, ret.
    destruct (Close sh (body w)) as [[o b1] t]. simpl. rewrite app_nil_r. reflexivity.
  - change (Close (TZstd sh) w) with (zstdReader_Close (Close sh) w).
    unfold zstdReader_Close, bind, ret.
    destruct (Close sh (body w)) as [[o b1] t]. simpl. rewrite app_nil_r. reflexivity.
  - destruct w as [b rw ew]. reflexivity.
  - destruct w as [b rw ew]. reflexivity.
  - destruct w as [b rw ew]. reflexivity.
  - rename H into Hr. change (Close (TZlibDeflate sh) w) with (zlibDeflateReader_Close w).
    unfold zlibDeflateReader_Close, call_Close. rewrite Hr.
    unfold bind, tell, ret. destruct (dec_Close zlib d). reflexivity.
  - rename H into Hr. change (Close (TDeflate sh) w) with (deflateReader_Close w).
    unfold deflateReader_Close, call_Close. rewrite Hr.
    unfold bind, tell, ret. destruct (dec_Close flate d). reflexivity.
  - change (Close (TZlibDeflate sh) w) with (zlibDeflateReader_Close w).
    unfold zlibDeflateReader_Close, call_Close.
    destruct (r w) as [d |]; [| reflexivity].
    unfold bind, tell, ret. destruct (dec_Close zlib d). reflexivity.
  - change (Close (TDeflate sh) w) with (deflateReader_Close w).
    unfold deflateReader_Close, call_Close.
    destruct (r w) as [d |]; [| reflexivity].
    unfold bind, tell, ret. destruct (dec_Close flate d). reflexivity.
Qed.

(** C10. Close on a zlibDeflateReader or deflateReader whose decoder
    field is nil panics, in particular on the reader that DecompressBody
    attaches when the peeked bytes start with 0x78; Close on a
    gzipReader, brReader or zstdReader over a transport stream returns in
    every state. *)
Theorem close_before_read_panics :
  (forall sh (w : zlibDeflateReader (state sh)), r w = None ->
     exists msg, Close (TZlibDeflate sh) w = ((Panicked msg, w), []))
  /\ (forall sh (w : deflateReader (state sh)), r w = None ->
     exists msg, Close (TDeflate sh) w = ((Panicked msg, w), []))
  /\ (forall fuel res sh (b : state sh) bs b1 t,
        Header_Get (Header res) "Content-Encoding" = "deflate"%string ->
        Body res = existT sh b ->
        io_ReadFull fuel (Read sh) 2 b = (Some ((bs, None), b1), t) ->
        nth 0 bs x00 = x78 ->
        exists res' sh' (w' : state sh') msg,
          DecompressBody fuel res = (Some res', t)
          /\ Body res' = existT sh' w'
          /\ Close sh' w' = ((Panicked msg, w'), []))
  /\ (forall w : gzipReader source,
        exists e, fst (fst (Close (TGzip TSource) w)) = Returned e)
  /\ (forall w : brReader source,
        exists e, fst (fst (Close (TBr TSource) w)) = Returned e)
  /\ (forall w : zstdReader source,
        exists e, fst (fst (Close (TZstd TSource) w)) = Returned e).
Proof.
  repeat apply conj.
  - intros sh w Hr. change (Close (TZlibDeflate sh) w) with (zlibDeflateReader_Close w).
    unfold zlibDeflateReader_Close. rewrite Hr.
    eexists. reflexivity.
  - intros sh w Hr. change (Close (TDeflate sh) w) with (deflateReader_Close w).
    unfold deflateReader_Close. rewrite Hr.
    eexists. reflexivity.
  - intros fuel res sh b bs b1 t Hce Hb Hpeek H0.
    destruct (DecompressBody_deflate_peek fuel res Hce Hb Hpeek)
      as (h0 & h1 & Htake & Hz & Hr & _).
    assert (h0 = x78) as ->.
    { destruct bs as [| c0 [| c1 bs']]; simpl in *; congruence. }
    destruct (in_dec Byte.byte_eq_dec h1 [x9c; x01; x5e; xda]) as [Hin | Hout].
    + rewrite (Hz eq_refl Hin). eexists _, (TZlibDeflate (TNopCloserMulti sh)), _, _.
      split; [reflexivity |]. split; reflexivity.
    + rewrite (Hr eq_refl Hout). eexists _, (TDeflate (TNopCloserMulti sh)), _, _.
      split; [reflexivity |]. split; reflexivity.
  - intros w. eexists; reflexivity.
  - intros w. eexists; reflexivity.
  - intros w. eexists; reflexivity.
Qed.

(** ** The rebuilt body of the deflate case *)

Lemma drain_more B (rd : reader B) n :
  forall fuel b x t,
    drain fuel rd n b = (Some x, t) -> drain (S fuel) rd n b = (Some x, t).
Proof.
  induction fuel as [| fuel IH]; intros b x t; [discriminate |].
  change (drain (S fuel) rd n b) with
    (let* ((bs, e), b1) := rd n b in
     match e with
     | Some _ => ret (Some ((bs, e), b1))
     | None =>
         let* o := drain fuel rd n b1 in
         match o with
         | Some ((bs', e'), b2) => ret (Some ((bs ++ bs', e'), b2))
         | None => ret None
         end
     end).
  change (drain (S (S fuel)) rd n b) with
    (let* ((bs, e), b1) := rd n b in
     match e with
     | Some _ => ret (Some ((bs, e), b1))
     | None =>
         let* o := drain (S fuel) rd n b1 in
         match o with
         | Some ((bs', e'), b2) => ret (Some ((bs ++ bs', e'), b2))
         | None => ret None
         end
     end).
  unfold bind. destruct (rd n b) as [[[bs e] b1] t1].
  destruct e as [e |]; [auto |].
  destruct (drain fuel rd n b1) as [[[[bs' e'] b2] |] t2] eqn:Hrec.
  - rewrite (IH _ _ _ Hrec). auto.
  - simpl. discriminate.
Qed.

(** Once the two bytes are out, the multiReader hands on what the body
    gives, error included. *)
Lemma drain_MR1 B (rd : reader B) n :
  forall fuel b rest e b2 t,
    drain fuel rd n b = (Some ((rest, e), b2), t) ->
    exists mr', drain fuel (multiReader_Read rd) n (MR1 b) = (Some ((rest, e), mr'), t).
Proof.
  induction fuel as [| fuel IH]; intros b rest e b2 t; [discriminate |].
  simpl. unfold multiReader_Read1, bind.
  destruct (rd n b) as [[[bs e1] b1] t1].
  destruct e1 as [e1 |].
  - unfold ret. simpl. intros [= <- <- <- <-].
    destruct e1; simpl; rewrite ?app_nil_r; eexists; reflexivity.
  - unfold ret. simpl.
    destruct (drain fuel rd n b1) as [[[[bs' e'] b2'] |] t2] eqn:Hrec;
      simpl; [| discriminate].
    intros [= <- <- <- <-].
    destruct (IH _ _ _ _ _ Hrec) as [mr' Hmr]. rewrite Hmr. simpl.
    rewrite ?app_nil_r. eexists; reflexivity.
Qed.

Lemma drain_MR2_done B (rd : reader B) n a :
  length (s a) <= i a ->
  forall fuel b rest e b2 t,
    drain fuel rd n b = (Some ((rest, e), b2), t) ->
    exists mr', drain fuel (multiReader_Read rd) n (MR2 a b) = (Some ((rest, e), mr'), t).
Proof.
  intros Hdone fuel b rest e b2 t Hd.
  destruct (drain_MR1 rd n fuel b Hd) as [mr' Hmr]. exists mr'.
  destruct fuel as [| fuel]; [discriminate |].
  rewrite <- Hmr. simpl. unfold bytes_Reader_Read.
  apply Nat.leb_le in Hdone. rewrite Hdone, bind_ret_l. reflexivity.
Qed.

Lemma drain_rebuilt B (rd : reader B) n h0 h1 :
  0 < n ->
  forall fuel b rest e b2 t,
    drain fuel rd n b = (Some ((rest, e), b2), t) ->
    exists mr',
      drain (fuel + 2) (multiReader_Read rd) n (MR2 (bytes_NewReader [h0; h1]) b)
      = (Some (([h0; h1] ++ rest, e), mr'), t).
Proof.
  intros Hn fuel b rest e b2 t Hd.
  destruct n as [| [| n]]; [lia | |].
  - (* buffers of length 1: a Read for each of the two bytes *)
    destruct (@drain_MR2_done B rd 1 {| s := [h0; h1]; i := 2 |} (le_n 2)
                fuel b rest e b2 t Hd) as [mr' Hmr].
    exists mr'. replace (fuel + 2) with (S (S fuel)) by lia.
    simpl in *. unfold bind, ret in *. simpl in *. rewrite Hmr, !app_nil_r. reflexivity.
  - destruct (@drain_MR2_done B rd (S (S n)) {| s := [h0; h1]; i := 2 |} (le_n 2)
                fuel b rest e b2 t Hd) as [mr' Hmr].
    exists mr'. replace (fuel + 2) with (S (S fuel)) by lia.
    apply drain_more.
    simpl. unfold bind, ret. simpl. rewrite !List.firstn_nil. simpl.
    rewrite Hmr. simpl. rewrite ?app_nil_r. reflexivity.
Qed.

Lemma source_Read_content n s0 cs e s1 t :
  source_Read n s0 = (((cs, e), s1), t) ->
  content s0 = cs ++ content s1 /\ length cs <= n.
Proof.
  unfold source_Read, content. destruct s0 as [sc f ce]. simpl.
  destruct sc as [| [c e0] rest]; unfold bind, tell, ret; simpl.
  - intros [= <- _ <- _]. simpl. split; [reflexivity | lia].
  - destruct (Nat.leb_spec (length c) n) as [Hc | Hc]; intros [= <- _ <- _]; simpl.
    + split; [reflexivity | exact Hc].
    + rewrite app_assoc, firstn_skipn. split; [reflexivity |].
      rewrite length_firstn. lia.
Qed.

Lemma ReadAtLeast_result_bytes min acc e : fst (ReadAtLeast_result min acc e) = acc.
Proof.
  unfold ReadAtLeast_result.
  destruct (min <=? length acc); [reflexivity |].
  destruct (_ && _); reflexivity.
Qed.

Lemma ReadAtLeast_loop_content len min :
  forall fuel acc s0 bs e s1 t,
    ReadAtLeast_loop fuel source_Read len min acc s0 = (Some ((bs, e), s1), t) ->
    acc ++ content s0 = bs ++ content s1
    /\ (length acc <= len -> length bs <= len).
Proof.
  assert (Hexit : forall acc e0 (s0 : source) bs e s1 (t : list event),
            (Some (ReadAtLeast_result min acc e0, s0), @nil event) = (Some ((bs, e), s1), t) ->
            acc ++ content s0 = bs ++ content s1 /\ (length acc <= len -> length bs <= len)).
  { intros acc e0 s0 bs e s1 t [= Hres <- _].
    pose proof (ReadAtLeast_result_bytes min acc e0) as Hb. rewrite Hres in Hb.
    simpl in Hb. subst bs. split; [reflexivity | auto]. }
  induction fuel as [| fuel IH]; intros acc s0 bs e s1 t; simpl.
  - destruct (min <=? length acc); [apply Hexit | discriminate].
  - destruct (min <=? length acc); [apply Hexit |].
    unfold bind.
    destruct (source_Read (len - length acc) s0) as [[[cs e1] s2] t1] eqn:Hrd.
    apply source_Read_content in Hrd as [Hcont Hlen].
    destruct e1 as [e1 |].
    + unfold ret. intros [= Hres <- _].
      pose proof (ReadAtLeast_result_bytes min (acc ++ cs) (Some e1)) as Hb.
      rewrite Hres in Hb. simpl in Hb. subst bs.
      rewrite Hcont, app_assoc. split; [reflexivity |].
      rewrite length_app. lia.
    + destruct (ReadAtLeast_loop fuel source_Read len min (acc ++ cs) s2)
        as [o t2] eqn:Hrec.
      intros [= -> _]. destruct (IH _ _ _ _ _ _ Hrec) as [Hc Hl].
      rewrite Hcont, app_assoc. split; [exact Hc |].
      intros Hacc. apply Hl. rewrite length_app. lia.
Qed.

(** C7. Content-Encoding deflate, and the peek succeeds with the bytes
    [bs]. The header array is [bs], two bytes. DecompressBody returns a
    response whose body is, or whose decoder reads from, the rebuilt
    body, [io.NopCloser(io.MultiReader(bytes.NewReader(header), body))]
    over the original body in the state the peek left it in. Reading the
    rebuilt body to exhaustion, with buffers of any length [n > 0],
    yields the two header bytes and then what reading the original body
    to exhaustion yields from that state, with the same final error and
    the same calls. On a transport stream the two header bytes and the
    bytes the stream still holds after the peek are the bytes it held
    before. *)
Theorem rebuilt_body_loses_nothing :
  (forall fuel res sh (b : state sh) bs b1 t,
     Header_Get (Header res) "Content-Encoding" = "deflate"%string ->
     Body res = existT sh b ->
     io_ReadFull fuel (Read sh) 2 b = (Some ((bs, None), b1), t) ->
     let header := firstn 2 bs in
     let rebuilt : state (TNopCloserMulti sh) := MR2 (bytes_NewReader header) b1 in
     length header = 2
     /\ (exists res',
           DecompressBody fuel res = (Some res', t)
           /\ (Body res' = existT (TZlibDeflate (TNopCloserMulti sh)) (fresh rebuilt)
               \/ Body res' = existT (TDeflate (TNopCloserMulti sh)) (fresh rebuilt)
               \/ Body res' = existT (TNopCloserMulti sh) rebuilt))
     /\ forall n fuel' rest e b2 t',
          0 < n ->
          drain fuel' (Read sh) n b1 = (Some ((rest, e), b2), t') ->
          exists mr',
            drain (fuel' + 2) (Read (TNopCloserMulti sh)) n rebuilt
            = (Some ((header ++ rest, e), mr'), t'))
  /\ (forall fuel (s0 : source) bs s1 t,
        io_ReadFull fuel source_Read 2 s0 = (Some ((bs, None), s1), t) ->
        length bs = 2 /\ content s0 = bs ++ content s1).
Proof.
  split.
  - intros fuel res sh b bs b1 t Hce Hb Hpeek header rebuilt.
    destruct (DecompressBody_deflate_peek fuel res Hce Hb Hpeek)
      as (h0 & h1 & Htake & Hz & Hr & Hn).
    subst rebuilt header. rewrite Htake. split; [reflexivity |]. split.
    + destruct (Byte.byte_eq_dec h0 x78) as [H0 | H0].
      * destruct (in_dec Byte.byte_eq_dec h1 [x9c; x01; x5e; xda]) as [Hin | Hout].
        -- eexists. split; [apply (Hz H0 Hin) | left; reflexivity].
        -- eexists. split; [apply (Hr H0 Hout) | right; left; reflexivity].
      * eexists. split; [apply (Hn H0) | right; right; reflexivity].
    + intros n fuel' rest e b2 t' Hpos Hd.
      apply (drain_rebuilt (Read sh) h0 h1 Hpos fuel' b1 Hd).
  - intros fuel s0 bs s1 t Hpeek.
    pose proof (io_ReadFull_nil _ _ _ _ Hpeek) as Hge.
    unfold io_ReadFull, io_ReadAtLeast in Hpeek. rewrite Nat.ltb_irrefl in Hpeek.
    apply ReadAtLeast_loop_content in Hpeek as [Hc Hl].
    simpl in Hc, Hl. split; [lia | exact Hc].
Qed.

End Properties.

(** * The properties at work on the small instance *)

Lemma deflate_disambiguation_witness :
  io_ReadFull 1 (Read (C := toy) TSource) 2 (stream_of [[x78; x9c; x01]])
    = (Some (([x78; x9c], None), stream_of [[x01]]), [ESrcRead 2])
  /\ exists res',
       DecompressBody (C := toy) 1 (response_of "deflate" (stream_of [[x78; x9c; x01]]))
         = (Some res', [ESrcRead 2])
       /\ Body res'
          = existT (TZlibDeflate (TNopCloserMulti TSource))
              {| body := MR2 {| s := [x78; x9c]; i := 0 |} (stream_of [[x01]]);
                 r := None; err := None |}.
Proof.
  split; [reflexivity |].
  destruct (@deflate_disambiguation toy 1
              (response_of "deflate" (stream_of [[x78; x9c; x01]]))
              TSource (stream_of [[x78; x9c; x01]]) [x78; x9c] (stream_of [[x01]])
              [ESrcRead 2] eq_refl eq_refl eq_refl)
    as (h0 & h1 & res' & Htake & Hrun & _ & _ & _ & Hzlib & _).
  injection Htake as <- <-.
  exists res'. split; [exact Hrun |].
  apply Hzlib; [reflexivity | left; reflexivity].
Defined.

Lemma wrap_normalizes_witness :
  exists res' t,
    DecompressBody (C := toy) 0 (response_of "gzip" (stream_of [[x1f; x8b]])) = (Some res', t)
    /\ Header res' !! "Content-Encoding"%string = None
    /\ Header res' !! "Content-Length"%string = None
    /\ Uncompressed res' = true
    /\ ContentLength res' = (-1)%Z.
Proof.
  apply (@wrap_normalizes toy 0 (response_of "gzip" (stream_of [[x1f; x8b]]))).
  left. reflexivity.
Defined.

Lemma deflate_skips_normalization_witness :
  exists res' t,
    DecompressBody (C := toy) 1 (response_of "deflate" (stream_of [[x78; x9c; x01]]))
      = (Some res', t)
    /\ Header res' = Header (response_of (C := toy) "deflate" (stream_of [[x78; x9c; x01]]))
    /\ Uncompressed res' = false
    /\ ContentLength res' = 42%Z.
Proof.
  eexists _, _. split; [reflexivity |].
  apply (proj2 (@deflate_skips_normalization toy 1
                  (response_of "deflate" (stream_of [[x78; x9c; x01]])) eq_refl)
           _ [ESrcRead 2]).
  reflexivity.
Defined.

Lemma unrecognized_is_noop_witness :
  DecompressBody (C := toy) 0 (response_of "identity" (stream_of [[x01]]))
  = (Some (response_of "identity" (stream_of [[x01]])), []).
Proof.
  apply (@unrecognized_is_noop toy 0 (response_of "identity" (stream_of [[x01]])));
    vm_compute; discriminate.
Defined.

Lemma deflate_peek_failure_witness :
  io_ReadFull 2 (Read (C := toy) TSource) 2 (stream_of [[x78]])
    = (Some (([x78], Some ErrUnexpectedEOF), stream_of []), [ESrcRead 2; ESrcRead 1])
  /\ exists res',
       DecompressBody (C := toy) 2 (response_of "deflate" (stream_of [[x78]]))
         = (Some res', [ESrcRead 2; ESrcRead 1])
       /\ Body res' = existT TSource (stream_of [])
       /\ Header res' = Header (response_of (C := toy) "deflate" (stream_of [[x78]]))
       /\ Uncompressed res' = false
       /\ ContentLength res' = 42%Z.
Proof.
  split; [reflexivity |].
  apply (@deflate_peek_failure toy 2 (response_of "deflate" (stream_of [[x78]]))
           TSource (stream_of [[x78]]) [x78] ErrUnexpectedEOF (stream_of [])
           [ESrcRead 2; ESrcRead 1]); reflexivity.
Defined.

Lemma construction_error_is_sticky_witness :
  run source_Read (gzip_NewReader (Codecs := toy)) (stream_of [[x00; x01]; [x02]])
    = ((inr (ErrOther "gzip: invalid header"), stream_of [[x02]]), [ESrcRead 2])
  /\ gzipReader_Read (C := toy) source_Read 4 (fresh (stream_of [[x00; x01]; [x02]]))
     = ((([], Some (ErrOther "gzip: invalid header")),
         {| body := stream_of [[x02]]; r := None;
            err := Some (ErrOther "gzip: invalid header") |}),
        [ENew KGzip; ESrcRead 2])
  /\ forall ns,
       read_seq (gzipReader_Read (C := toy) source_Read) ns
         {| body := stream_of [[x02]]; r := None;
            err := Some (ErrOther "gzip: invalid header") |}
       = ((replicate (length ns) ([], Some (ErrOther "gzip: invalid header")),
           {| body := stream_of [[x02]]; r := None;
              err := Some (ErrOther "gzip: invalid header") |}), []).
Proof.
  split; [reflexivity |].
  apply (proj1 (@construction_error_is_sticky toy source source_Read)
           _ _ _ _ (FR_gzip (C := toy) source_Read)
           (stream_of [[x00; x01]; [x02]]) (ErrOther "gzip: invalid header")
           (stream_of [[x02]]) [ESrcRead 2] 4).
  reflexivity.
Defined.

Lemma decoder_constructed_once_witness :
  count_New KGzip
    (snd (gzipReader_Read (C := toy) source_Read 4
            (fresh (stream_of [[x1f; x8b]; [x01; x02]])))) = 1
  /\ count_New KGzip
       (snd (read_seq (gzipReader_Read (C := toy) source_Read) [4; 4; 4]
               (fresh (stream_of [[x1f; x8b]; [x01; x02]])))) = 1.
Proof.
  apply (proj1 (@decoder_constructed_once toy) source source_Read
           _ _ _ (LR_gzip (C := toy) source_Read) (source_Read_quiet KGzip)
           (stream_of [[x1f; x8b]; [x01; x02]]) 4 [4; 4]).
Defined.

Lemma rebuilt_body_loses_nothing_witness :
  length (firstn 2 [x78; x9c]) = 2
  /\ (exists res',
        DecompressBody (C := toy) 1 (response_of "deflate" (stream_of [[x78; x9c; x01]]))
          = (Some res', [ESrcRead 2])
        /\ (Body res' = existT (TZlibDeflate (TNopCloserMulti TSource))
                          (fresh (MR2 (bytes_NewReader [x78; x9c]) (stream_of [[x01]])))
            \/ Body res' = existT (TDeflate (TNopCloserMulti TSource))
                          (fresh (MR2 (bytes_NewReader [x78; x9c]) (stream_of [[x01]])))
            \/ Body res' = existT (TNopCloserMulti TSource)
                          (MR2 (bytes_NewReader [x78; x9c]) (stream_of [[x01]]))))
  /\ forall n fuel' rest e b2 t',
       0 < n ->
       drain fuel' (Read (C := toy) TSource) n (stream_of [[x01]])
         = (Some ((rest, e), b2), t') ->
       exists mr',
         drain (fuel' + 2) (Read (C := toy) (TNopCloserMulti TSource)) n
           (MR2 (bytes_NewReader [x78; x9c]) (stream_of [[x01]]))
         = (Some (([x78; x9c] ++ rest, e), mr'), t').
Proof.
  apply (proj1 (@rebuilt_body_loses_nothing toy) 1
           (response_of "deflate" (stream_of [[x78; x9c; x01]]))
           TSource (stream_of [[x78; x9c; x01]]) [x78; x9c] (stream_of [[x01]])
           [ESrcRead 2]); reflexivity.
Defined.

Lemma close_asymmetry_witness :
  Close (C := toy) (TZlibDeflate (TNopCloserMulti TSource))
    {| body := MR1 (stream_of [[x01]]); r := Some tt; err := None |}
  = ((Returned None, {| body := MR1 (stream_of [[x01]]); r := Some tt; err := None |}),
     [EDecClose KZlib]).
Proof.
  apply (proj1 (proj2 (proj2 (proj2 (proj2 (proj2 (proj2 (@close_asymmetry toy)))))))
           (TNopCloserMulti TSource)
           {| body := MR1 (stream_of [[x01]]); r := Some tt; err := None |} tt).
  reflexivity.
Defined.

Lemma close_before_read_panics_witness :
  exists msg,
    Close (C := toy) (TZlibDeflate (TNopCloserMulti TSource))
      (fresh (MR2 (bytes_NewReader [x78; x9c]) (stream_of [[x01]])))
    = ((Panicked msg, fresh (MR2 (bytes_NewReader [x78; x9c]) (stream_of [[x01]]))), []).
Proof.
  apply (proj1 (@close_before_read_panics toy) (TNopCloserMulti TSource)
           (fresh (MR2 (bytes_NewReader [x78; x9c]) (stream_of [[x01]])))).
  reflexivity.
Defined.

(** * Runs of the model *)

(** 0x78 followed by a byte outside the four levels: raw deflate. *)
Example deflate_raw_run :
  option_map (fun res' => projT1 (Body res'))
    (fst (DecompressBody (C := toy) 1 (response_of "deflate" (stream_of [[x78; x00; x01]]))))
  = Some (TDeflate (TNopCloserMulti TSource)).
Proof. reflexivity. Qed.

(** A first byte other than 0x78: the rebuilt body, no decoder. *)
Example deflate_passthrough_run :
  option_map (fun res' => projT1 (Body res'))
    (fst (DecompressBody (C := toy) 1 (response_of "deflate" (stream_of [[x1f; x8b; x01]]))))
  = Some (TNopCloserMulti TSource).
Proof. reflexivity. Qed.

(** The peek may take several reads of the transport stream. *)
Example deflate_peek_in_two_reads :
  option_map (fun res' => projT1 (Body res'))
    (fst (DecompressBody (C := toy) 2 (response_of "deflate" (stream_of [[x78]; [xda; x01]]))))
  = Some (TZlibDeflate (TNopCloserMulti TSource))
  /\ snd (DecompressBody (C := toy) 2 (response_of "deflate" (stream_of [[x78]; [xda; x01]])))
     = [ESrcRead 2; ESrcRead 1].
Proof. split; reflexivity. Qed.

(** Without a Content-Encoding entry nothing happens. *)
Example absent_encoding_run :
  DecompressBody (C := toy) 0
    {| Header := ∅; Body := existT TSource (stream_of [[x01]]);
       Uncompressed := false; ContentLength := 1 |}
  = (Some {| Header := ∅; Body := existT TSource (stream_of [[x01]]);
             Uncompressed := false; ContentLength := 1 |}, []).
Proof. reflexivity. Qed.

(** Reading the zlib reader of the deflate case to exhaustion: the
    constructor, called in the first Read, gets the two peeked bytes from
    the rebuilt body without a read of the transport stream; the rest of
    the stream follows. *)
Example deflate_read_run :
  drain 5 (Read (C := toy) (TZlibDeflate (TNopCloserMulti TSource))) 2
    (fresh (MR2 (bytes_NewReader [x78; x9c]) (stream_of [[x01; x02]; [x03]])))
  = (Some (([x01; x02; x03], Some EOF),
           {| body := MR0; r := Some tt; err := None |}),
     [ENew KZlib; EDecRead KZlib 2; ESrcRead 2; EDecRead KZlib 2; ESrcRead 2;
      EDecRead KZlib 2; ESrcRead 2]).
Proof. reflexivity. Qed.

(** * Further properties of decompress.go *)

Section Further.

Context {C : Codecs}.

(** ** DecompressBody on its own result, and on short bodies *)

Lemma DecompressBody_default fuel res :
  Header_Get (Header res) "Content-Encoding" = ""%string ->
  DecompressBody fuel res = (Some res, []).
Proof.
  intros Hce. unfold DecompressBody. rewrite Hce.
  destruct (Body res) as [sh b]. reflexivity.
Qed.

Lemma after_switch_encoding res :
  Header_Get (Header (after_switch res)) "Content-Encoding" = ""%string.
Proof.
  unfold Header_Get. destruct (after_switch_fields res) as [-> _]. reflexivity.
Qed.

Lemma after_switch_other_keys res key :
  key <> "Content-Encoding"%string -> key <> "Content-Length"%string ->
  Header (after_switch res) !! key = Header res !! key.
Proof.
  intros H1 H2. unfold after_switch, Header_Del. simpl.
  rewrite !lookup_delete_ne by congruence. reflexivity.
Qed.

(** The three cases that fall through to lines 49 to 52. *)
Lemma DecompressBody_wrapping fuel res :
  Header_Get (Header res) "Content-Encoding" = "gzip"%string
  \/ Header_Get (Header res) "Content-Encoding" = "br"%string
  \/ Header_Get (Header res) "Content-Encoding" = "zstd"%string ->
  exists body', DecompressBody fuel res = (Some (after_switch (set_Body res body')), []).
Proof.
  destruct (Body res) as [sh b] eqn:Hb.
  intros [Hce | [Hce | Hce]].
  - rewrite (DecompressBody_gzip fuel res Hce Hb). eexists; reflexivity.
  - rewrite (DecompressBody_br fuel res Hce Hb). eexists; reflexivity.
  - rewrite (DecompressBody_zstd fuel res Hce Hb). eexists; reflexivity.
Qed.

(** X1. Content-Encoding gzip, br or zstd: the header entries of every
    key other than Content-Encoding and Content-Length are the ones the
    response came with. *)
Theorem wrap_keeps_other_headers fuel res :
  Header_Get (Header res) "Content-Encoding" = "gzip"%string
  \/ Header_Get (Header res) "Content-Encoding" = "br"%string
  \/ Header_Get (Header res) "Content-Encoding" = "zstd"%string ->
  exists res',
    DecompressBody fuel res = (Some res', [])
    /\ forall key,
         key <> "Content-Encoding"%string -> key <> "Content-Length"%string ->
         Header res' !! key = Header res !! key.
Proof.
  intros Hce. destruct (DecompressBody_wrapping fuel res Hce) as [body' ->].
  eexists. split; [reflexivity |].
  intros key H1 H2. rewrite after_switch_other_keys by assumption. reflexivity.
Qed.

(** X2. Content-Encoding gzip, br or zstd: DecompressBody on the response
    it has returned does nothing: the entry it switches on is gone, so
    the body is not wrapped a second time. *)
Theorem wrap_twice_is_wrap_once fuel fuel' res :
  Header_Get (Header res) "Content-Encoding" = "gzip"%string
  \/ Header_Get (Header res) "Content-Encoding" = "br"%string
  \/ Header_Get (Header res) "Content-Encoding" = "zstd"%string ->
  exists res',
    DecompressBody fuel res = (Some res', [])
    /\ DecompressBody fuel' res' = (Some res', []).
Proof.
  intros Hce. destruct (DecompressBody_wrapping fuel res Hce) as [body' ->].
  eexists. split; [reflexivity |].
  apply DecompressBody_default, after_switch_encoding.
Qed.

(** A peek on a rebuilt body is served by its bytes.Reader. *)
Lemma io_ReadFull_rebuilt B (rd : reader B) fuel h0 h1 (b : B) :
  io_ReadFull (S fuel) (multiReader_Read rd) 2 (MR2 (bytes_NewReader [h0; h1]) b)
  = (Some (([h0; h1], None), MR2 {| s := [h0; h1]; i := 2 |} b), []).
Proof.
  unfold io_ReadFull, io_ReadAtLeast. simpl. unfold bind, ret. simpl.
  rewrite ReadAtLeast_loop_full by (simpl; lia). reflexivity.
Qed.

(** X3. Content-Encoding deflate with a first byte other than 0x78: the
    header entry stays, so DecompressBody on the response it has returned
    takes the deflate case again. It peeks the same two bytes, from the
    bytes.Reader and without a call to the body underneath, and puts a
    second NopCloser(MultiReader(...)) around the first. *)
Theorem deflate_twice_rewraps fuel fuel' res sh (b : state sh) bs b1 t :
  Header_Get (Header res) "Content-Encoding" = "deflate"%string ->
  Body res = existT sh b ->
  io_ReadFull fuel (Read sh) 2 b = (Some ((bs, None), b1), t) ->
  nth 0 bs x00 <> x78 ->
  exists res' h0 h1,
    DecompressBody fuel res = (Some res', t)
    /\ firstn 2 bs = [h0; h1]
    /\ DecompressBody (S fuel') res'
       = (Some (set_Body res
                  (existT (TNopCloserMulti (TNopCloserMulti sh))
                     (MR2 (bytes_NewReader [h0; h1])
                        (MR2 {| s := [h0; h1]; i := 2 |} b1)))), []).
Proof.
  intros Hce Hb Hpeek H0.
  destruct (DecompressBody_deflate_peek fuel res Hce Hb Hpeek)
    as (h0 & h1 & Htake & _ & _ & Hn).
  assert (Hh0 : h0 <> x78).
  { destruct bs as [| c0 [| c1 bs']]; simpl in *; congruence. }
  specialize (Hn Hh0).
  set (res' := set_Body res
                 (existT (TNopCloserMulti sh) (MR2 (bytes_NewReader [h0; h1]) b1))) in *.
  exists res', h0, h1.
  split; [exact Hn |]. split; [exact Htake |].
  rewrite (@DecompressBody_deflate C (S fuel') res' (TNopCloserMulti sh)
             (MR2 (bytes_NewReader [h0; h1]) b1) Hce eq_refl).
  rewrite (io_ReadFull_rebuilt (Read sh) fuel' h0 h1 b1
           : io_ReadFull (S fuel') (Read (TNopCloserMulti sh)) 2
               (MR2 (bytes_NewReader [h0; h1]) b1) = _).
  unfold bind, ret. simpl.
  rewrite (deflate_wrap_none res' (TNopCloserMulti sh) _ h1 Hh0).
  reflexivity.
Qed.

Lemma ReadAtLeast_result_err min acc e0 bs e :
  ReadAtLeast_result min acc e0 = (bs, Some e) -> bs = acc /\ length acc < min.
Proof.
  unfold ReadAtLeast_result.
  destruct (Nat.leb_spec min (length acc)) as [Hle | Hlt]; [discriminate |].
  destruct (_ && _); intros [= <- _]; split; auto.
Qed.

Lemma ReadAtLeast_loop_err B (rd : reader B) len min :
  forall fuel acc b bs e b1 t,
    ReadAtLeast_loop fuel rd len min acc b = (Some ((bs, Some e), b1), t) ->
    length bs < min.
Proof.
  induction fuel as [| fuel IH]; intros acc b bs e b1 t; simpl.
  - destruct (min <=? length acc); [| discriminate].
    unfold ret. intros [= Hres _ _].
    apply ReadAtLeast_result_err in Hres as [-> Hlt]. exact Hlt.
  - destruct (min <=? length acc).
    + unfold ret. intros [= Hres _ _].
      apply ReadAtLeast_result_err in Hres as [-> Hlt]. exact Hlt.
    + unfold bind. destruct (rd (len - length acc) b) as [[[cs e1] b'] t1].
      destruct e1 as [e1 |].
      * unfold ret. intros [= Hres _ _].
        apply ReadAtLeast_result_err in Hres as [-> Hlt]. exact Hlt.
      * destruct (ReadAtLeast_loop fuel rd len min (acc ++ cs) b') as [o t2] eqn:Hrec.
        intros [= -> _]. eapply IH. exact Hrec.
Qed.

(** X4. Content-Encoding deflate on a transport stream, and the peek
    fails after reading the bytes [bs]: fewer than two, and they are gone
    from the body that is left in the response, which holds only what the
    stream held after them. *)
Theorem peek_failure_drops_bytes fuel res (s0 : source) bs e s1 t :
  Header_Get (Header res) "Content-Encoding" = "deflate"%string ->
  Body res = existT TSource s0 ->
  io_ReadFull fuel source_Read 2 s0 = (Some ((bs, Some e), s1), t) ->
  DecompressBody fuel res = (Some (set_Body res (existT TSource s1)), t)
  /\ length bs < 2
  /\ content s0 = bs ++ content s1.
Proof.
  intros Hce Hb Hpeek. split; [| split].
  - rewrite (DecompressBody_deflate fuel res Hce Hb).
    rewrite (Hpeek : io_ReadFull fuel (Read TSource) 2 s0 = _).
    unfold bind, ret. rewrite app_nil_r. reflexivity.
  - unfold io_ReadFull, io_ReadAtLeast in Hpeek. rewrite Nat.ltb_irrefl in Hpeek.
    apply ReadAtLeast_loop_err in Hpeek. exact Hpeek.
  - unfold io_ReadFull, io_ReadAtLeast in Hpeek. rewrite Nat.ltb_irrefl in Hpeek.
    apply ReadAtLeast_loop_content in Hpeek as [Hc _]. exact Hc.
Qed.

(** X5. Content-Encoding deflate on a transport stream that has nothing
    left: one Read of the stream, whose error is dropped, and the
    response is the one that was given. *)
Theorem deflate_empty_body fuel res (s0 : source) :
  Header_Get (Header res) "Content-Encoding" = "deflate"%string ->
  Body res = existT TSource s0 ->
  script s0 = [] ->
  DecompressBody (S fuel) res = (Some res, [ESrcRead 2]).
Proof.
  intros Hce Hb Hs.
  rewrite (DecompressBody_deflate (S fuel) res Hce Hb).
  destruct s0 as [sc f ce]. simpl in Hs. subst sc.
  destruct res as [h bd u cl]. simpl in Hb. subst bd.
  destruct f; reflexivity.
Qed.

(** X6. On a transport stream DecompressBody returns, whatever the
    header says: the peek of the deflate case ends within one Read more
    than the stream has entries. *)
Theorem DecompressBody_returns fuel res (s0 : source) :
  Body res = existT TSource s0 ->
  length (script s0) < fuel ->
  exists res', fst (DecompressBody fuel res) = Some res'.
Proof.
  intros Hb Hfuel. unfold DecompressBody. rewrite Hb.
  destruct (String.eqb _ "gzip"); [eexists; reflexivity |].
  destruct (String.eqb _ "br"); [eexists; reflexivity |].
  destruct (String.eqb _ "deflate").
  - destruct (io_ReadFull_source 2 s0 Hfuel) as [x Hx].
    change (io_ReadFull fuel source_Read 2 s0)
      with (io_ReadFull fuel (Read TSource) 2 s0) in Hx. unfold bind.
    destruct (io_ReadFull fuel (Read TSource) 2 s0) as [o t1]. simpl in Hx. subst o.
    destruct x as [[bs [e |]] s1]; eexists; reflexivity.
  - destruct (String.eqb _ "zstd"); eexists; reflexivity.
Qed.

(** ** The states of a lazy reader *)

Lemma total_reader_form B (rd : reader B) D k new rdw :
  total_reader rd D k new rdw -> rdw = lazy_Read_total k D new rd.
Proof. destruct 1; reflexivity. Qed.

Lemma read_seq_keeps W (rdw : reader W) (P : W -> Prop) :
  (forall n w, P w -> P (state_after (rdw n w))) ->
  forall ns w, P w -> P (state_after (read_seq rdw ns w)).
Proof.
  intros Hstep. induction ns as [| n ns IH]; intros w Hw; [exact Hw |].
  specialize (Hstep n w Hw). simpl. unfold state_after, bind, ret in *.
  destruct (rdw n w) as [[x w1] t1]. simpl in Hstep. specialize (IH w1 Hstep).
  destruct (read_seq rdw ns w1) as [[xs w2] t2]. exact IH.
Qed.

Lemma read_seq_cons W (rdw : reader W) n ns w :
  state_after (read_seq rdw (n :: ns) w)
  = state_after (read_seq rdw ns (state_after (rdw n w))).
Proof.
  simpl. unfold state_after, bind, ret.
  destruct (rdw n w) as [[x w1] t1]. simpl.
  destruct (read_seq rdw ns w1) as [[xs w2] t2]. reflexivity.
Qed.

Lemma fallible_settles B (rd : reader B) k D new n (w : lazy B (dec D)) :
  w = fresh (body w) \/ settled_after_Read w ->
  settled_after_Read (state_after (lazy_Read_fallible k D new rd n w)).
Proof.
  unfold settled_after_Read, ready, state_after, lazy_Read_fallible.
  intros [Hw | [[Hr He] | [Hr He]]].
  - rewrite Hw. simpl. unfold bind, ret.
    destruct (call_New k rd new (body w)) as [[[d | e] b1] t1]; simpl.
    + destruct (call_Read k D rd n d b1) as [[[out d'] b2] t2]. simpl.
      left. split; [discriminate | reflexivity].
    + right. split; [reflexivity | discriminate].
  - rewrite He. destruct (r w) as [d |]; [| congruence].
    unfold bind, ret.
    destruct (call_Read k D rd n d (body w)) as [[[out d'] b2] t2]. simpl.
    left. split; [discriminate | reflexivity].
  - destruct (err w) as [e |] eqn:Hew; [| congruence]. simpl.
    right. split; [exact Hr | congruence].
Qed.

Lemma total_settles B (rd : reader B) k D new n (w : lazy B (dec D)) :
  w = fresh (body w) \/ ready w ->
  ready (state_after (lazy_Read_total k D new rd n w)).
Proof.
  unfold ready, state_after, lazy_Read_total.
  intros [Hw | [Hr He]].
  - rewrite Hw. simpl. unfold bind, ret.
    destruct (call_New k rd new (body w)) as [[d b1] t1]; simpl.
    destruct (call_Read k D rd n d b1) as [[[out d'] b2] t2]. simpl.
    split; [discriminate | reflexivity].
  - rewrite He. destruct (r w) as [d |]; [| congruence].
    unfold bind, ret.
    destruct (call_Read k D rd n d (body w)) as [[[out d'] b2] t2]. simpl.
    split; [discriminate | reflexivity].
Qed.

(** X7. Each of the five readers, from the state DecompressBody makes it
    in: after one Read or more it holds a decoder and no error, or an
    error and no decoder, never both and never neither. *)
Theorem reader_is_ready_or_failed B (rd : reader B) D k rdw :
  lazy_reader rd D k rdw ->
  forall b n ns,
    let w := state_after (read_seq rdw (n :: ns) (fresh b)) in
    (r w <> None /\ err w = None) \/ (r w = None /\ err w <> None).
Proof.
  intros Hv b n ns. cbv zeta. rewrite read_seq_cons.
  destruct (lazy_reader_form Hv) as [[new ->] | [new ->]].
  - apply (@read_seq_keeps _ (lazy_Read_fallible k D new rd) settled_after_Read).
    + intros m w Hw. apply fallible_settles. right. exact Hw.
    + apply fallible_settles. left. reflexivity.
  - left.
    apply (@read_seq_keeps _ (lazy_Read_total k D new rd) ready).
    + intros m w Hw. apply total_settles. right. exact Hw.
    + apply total_settles. left. reflexivity.
Qed.

Lemma total_reads_ready B (rd : reader B) k D new b n ns :
  ready (state_after (read_seq (lazy_Read_total k D new rd) (n :: ns) (fresh b))).
Proof.
  rewrite read_seq_cons.
  apply (@read_seq_keeps _ (lazy_Read_total k D new rd) ready).
  - intros m w Hw. apply total_settles. right. exact Hw.
  - apply total_settles. left. reflexivity.
Qed.

(** X8. brReader and deflateReader never record an error: from the state
    DecompressBody makes them in, after one Read or more the decoder is
    there and the error field is nil, whatever the decoder's Read
    returned. *)
Theorem total_reader_never_fails B (rd : reader B) D k new rdw :
  total_reader rd D k new rdw ->
  forall b n ns,
    let w := state_after (read_seq rdw (n :: ns) (fresh b)) in
    r w <> None /\ err w = None.
Proof.
  intros Hv b n ns. cbv zeta. rewrite read_seq_cons.
  rewrite (total_reader_form Hv).
  apply (@read_seq_keeps _ (lazy_Read_total k D new rd) ready).
  - intros m w Hw. apply total_settles. right. exact Hw.
  - apply total_settles. left. reflexivity.
Qed.

(** ** Calls of the decoder's Read *)

Lemma count_DecRead_app k t1 t2 :
  count_DecRead k (t1 ++ t2) = count_DecRead k t1 + count_DecRead k t2.
Proof. unfold count_DecRead. rewrite List.filter_app, length_app. reflexivity. Qed.

Lemma run_silent B (rd : reader B) k :
  silent k rd -> forall A (p : prog A) b, count_DecRead k (snd (run rd p b)) = 0.
Proof.
  intros Hq A p. induction p as [a | n cont IH]; intros b; simpl; [reflexivity |].
  unfold bind. specialize (Hq n b).
  destruct (rd n b) as [[res b1] t1]. specialize (IH res b1).
  destruct (run rd (cont res) b1) as [[a b2] t2]. simpl in *.
  rewrite count_DecRead_app. lia.
Qed.

Lemma call_Read_counts B (rd : reader B) k D n d b :
  silent k rd -> count_DecRead k (log_of (call_Read k D rd n d b)) = 1.
Proof.
  intros Hq. unfold call_Read, log_of, bind, tell.
  pose proof (run_silent Hq (dec_Read D n d) b) as Hr.
  destruct (run rd (dec_Read D n d) b) as [[x b1] t1]. simpl in *.
  unfold count_DecRead in *. simpl. rewrite codec_id_eqb_refl. simpl.
  rewrite Hr. reflexivity.
Qed.

Lemma call_New_counts B (rd : reader B) k A (new : prog A) b :
  silent k rd -> count_DecRead k (log_of (call_New k rd new b)) = 0.
Proof.
  intros Hq. unfold call_New, log_of, bind, tell.
  pose proof (run_silent Hq new b) as Hr.
  destruct (run rd new b) as [[x b1] t1]. simpl in *. exact Hr.
Qed.

Lemma read_seq_log W (rdw : reader W) n ns w :
  log_of (read_seq rdw (n :: ns) w)
  = log_of (rdw n w) ++ log_of (read_seq rdw ns (state_after (rdw n w))).
Proof.
  simpl. unfold log_of, state_after, bind, ret.
  destruct (rdw n w) as [[x w1] t1]. simpl.
  destruct (read_seq rdw ns w1) as [[xs w2] t2]. simpl.
  rewrite app_nil_r. reflexivity.
Qed.

Lemma read_seq_counts W (rdw : reader W) (P : W -> Prop) k :
  (forall n w, P w ->
     count_DecRead k (log_of (rdw n w)) = 1 /\ P (state_after (rdw n w))) ->
  forall ns w, P w -> count_DecRead k (log_of (read_seq rdw ns w)) = length ns.
Proof.
  intros Hstep. induction ns as [| n ns IH]; intros w Hw; [reflexivity |].
  destruct (Hstep n w Hw) as [Hc Hp].
  rewrite read_seq_log, count_DecRead_app, Hc, (IH _ Hp). reflexivity.
Qed.

Lemma ready_Read_fallible B (rd : reader B) k D new n (w : lazy B (dec D)) :
  silent k rd -> ready w ->
  count_DecRead k (log_of (lazy_Read_fallible k D new rd n w)) = 1
  /\ ready (state_after (lazy_Read_fallible k D new rd n w)).
Proof.
  intros Hq [Hr He]. unfold lazy_Read_fallible, log_of, state_after, ready.
  rewrite He. destruct (r w) as [d |]; [| congruence].
  pose proof (call_Read_counts D n d (body w) Hq) as Hc.
  unfold bind, ret, log_of in *.
  destruct (call_Read k D rd n d (body w)) as [[[out d'] b2] t2]. simpl in *.
  rewrite app_nil_r. split; [exact Hc | split; [discriminate | reflexivity]].
Qed.

Lemma ready_Read_total B (rd : reader B) k D new n (w : lazy B (dec D)) :
  silent k rd -> ready w ->
  count_DecRead k (log_of (lazy_Read_total k D new rd n w)) = 1
  /\ ready (state_after (lazy_Read_total k D new rd n w)).
Proof.
  intros Hq [Hr He]. unfold lazy_Read_total, log_of, state_after, ready.
  rewrite He. destruct (r w) as [d |]; [| congruence].
  pose proof (call_Read_counts D n d (body w) Hq) as Hc.
  unfold bind, ret, log_of in *.
  destruct (call_Read k D rd n d (body w)) as [[[out d'] b2] t2]. simpl in *.
  rewrite app_nil_r. split; [exact Hc | split; [discriminate | reflexivity]].
Qed.

Lemma first_Read_fallible B (rd : reader B) k D new n b :
  silent k rd ->
  let m := lazy_Read_fallible k D new rd n (fresh b) in
  (ready (state_after m) /\ count_DecRead k (log_of m) = 1)
  \/ (r (state_after m) = None /\ err (state_after m) <> None
      /\ count_DecRead k (log_of m) = 0).
Proof.
  intros Hq. cbv zeta. unfold lazy_Read_fallible, fresh, log_of, state_after, ready.
  simpl. pose proof (call_New_counts new b Hq) as Hn. unfold bind at 1 3 4 6 7.
  unfold log_of in Hn.
  destruct (call_New k rd new b) as [[[d | e] b1] t1]; simpl in *.
  - left. pose proof (call_Read_counts D n d b1 Hq) as Hc.
    unfold bind, ret, log_of in *.
    destruct (call_Read k D rd n d b1) as [[[out d'] b2] t2]. simpl in *.
    rewrite app_nil_r, count_DecRead_app, Hn, Hc.
    repeat split; discriminate.
  - right. rewrite app_nil_r. repeat split; [discriminate | exact Hn].
Qed.

Lemma first_Read_total B (rd : reader B) k D new n b :
  silent k rd ->
  let m := lazy_Read_total k D new rd n (fresh b) in
  ready (state_after m) /\ count_DecRead k (log_of m) = 1.
Proof.
  intros Hq. cbv zeta. unfold lazy_Read_total, fresh, log_of, state_after, ready.
  simpl. pose proof (call_New_counts new b Hq) as Hn. unfold bind at 1 3 4.
  unfold log_of in Hn.
  destruct (call_New k rd new b) as [[d b1] t1]; simpl in *.
  pose proof (call_Read_counts D n d b1 Hq) as Hc.
  unfold bind, ret, log_of in *.
  destruct (call_Read k D rd n d b1) as [[[out d'] b2] t2]. simpl in *.
  rewrite app_nil_r, count_DecRead_app, Hn, Hc.
  repeat split; discriminate.
Qed.

Lemma failed_reads_are_silent B (rd : reader B) D k rdw (w : lazy B (dec D)) ns :
  lazy_reader rd D k rdw -> err w <> None ->
  log_of (read_seq rdw ns w) = [].
Proof.
  intros Hv He. destruct (err w) as [e |] eqn:Hew; [| congruence].
  rewrite (@read_seq_fixed _ rdw w ([], Some e)); [reflexivity |].
  intros m. apply (lazy_reader_sticky Hv). exact Hew.
Qed.

(** X9. Each of the five readers, over a body that calls no decoder of
    the reader's codec itself, from the state DecompressBody makes it in:
    when the first Read leaves a decoder, that Read and every later one
    call the decoder's Read once each, whatever it returned before
    (io.EOF or another error of the decoder is handed on and not
    recorded); when the first Read leaves none, the decoder's Read is
    never called. *)
Theorem decoder_is_read_on_every_Read B (rd : reader B) D k rdw :
  lazy_reader rd D k rdw -> silent k rd ->
  forall b n ns,
    (r (state_after (rdw n (fresh b))) <> None ->
       count_DecRead k (log_of (read_seq rdw (n :: ns) (fresh b))) = S (length ns))
    /\ (r (state_after (rdw n (fresh b))) = None ->
       count_DecRead k (log_of (read_seq rdw (n :: ns) (fresh b))) = 0).
Proof.
  intros Hv Hq b n ns. rewrite read_seq_log, count_DecRead_app.
  destruct (lazy_reader_form Hv) as [[new Hf] | [new Hf]].
  - pose proof (first_Read_fallible D new n b Hq) as Hfirst. cbv zeta in Hfirst.
    rewrite <- Hf in Hfirst.
    destruct Hfirst as [[Hready Hc] | (Hr & He & Hc)]; rewrite Hc.
    + split; [| destruct Hready; congruence].
      intros _. f_equal.
      apply (@read_seq_counts _ rdw ready k); [| exact Hready].
      intros m w Hw. rewrite Hf. apply ready_Read_fallible; assumption.
    + split; [congruence |]. intros _.
      rewrite (failed_reads_are_silent _ ns Hv He). reflexivity.
  - pose proof (first_Read_total D new n b Hq) as Hfirst. cbv zeta in Hfirst.
    rewrite <- Hf in Hfirst. destruct Hfirst as [Hready Hc]. rewrite Hc.
    split; [| destruct Hready; congruence].
    intros _. f_equal.
    apply (@read_seq_counts _ rdw ready k); [| exact Hready].
    intros m w Hw. rewrite Hf. apply ready_Read_total; assumption.
Qed.

Lemma source_Read_silent k : silent k source_Read.
Proof.
  intros n [sc f ce]. unfold source_Read. simpl.
  destruct sc as [| [c e] rest]; [reflexivity |].
  unfold bind, tell, ret. simpl. destruct (length c <=? n); reflexivity.
Qed.

(** ** Close after Read, Close after the deflate case *)

(** X10. A zlibDeflateReader whose constructor failed in the first Read
    still has no decoder, so Close on it panics, after that Read and
    after any later ones. A deflateReader that has been read from has a
    decoder: Close on it returns, and its one call is Close on the
    decoder. *)
Theorem close_after_read B (rd : reader B) :
  (forall b e b1 t n ns,
     run rd zlib_NewReader b = ((inr e, b1), t) ->
     exists msg,
       fst (fst (zlibDeflateReader_Close
                   (state_after (read_seq (zlibDeflateReader_Read rd) (n :: ns) (fresh b)))))
       = Panicked msg)
  /\ (forall b n ns,
        exists e,
          fst (fst (deflateReader_Close
                      (state_after (read_seq (deflateReader_Read rd) (n :: ns) (fresh b)))))
          = Returned e
          /\ log_of (deflateReader_Close
                       (state_after (read_seq (deflateReader_Read rd) (n :: ns) (fresh b))))
             = [EDecClose KFlate]).
Proof.
  split.
  - intros b e b1 t n ns Hnew. rewrite read_seq_cons.
    assert (Hfirst : state_after (zlibDeflateReader_Read rd n (fresh b))
                     = {| body := b1; r := None; err := Some e |}).
    { unfold zlibDeflateReader_Read, fresh, call_New, state_after. simpl.
      unfold bind, tell, ret. rewrite Hnew. reflexivity. }
    rewrite Hfirst.
    rewrite (@read_seq_fixed _ (zlibDeflateReader_Read rd)
               {| body := b1; r := None; err := Some e |} ([], Some e))
      by (intros m; reflexivity).
    eexists. reflexivity.
  - intros b n ns.
    pose proof (@total_reads_ready B rd KFlate flate flate_NewReader b n ns) as Hrdy.
    change (lazy_Read_total KFlate flate flate_NewReader rd)
      with (deflateReader_Read rd) in Hrdy.
    set (w := state_after (read_seq (deflateReader_Read rd) (n :: ns) (fresh b))) in *.
    destruct Hrdy as [Hr He].
    unfold deflateReader_Close, call_Close, log_of.
    destruct (r w) as [d |] eqn:Hrw; [| exfalso; exact (Hr Hrw)].
    unfold bind, tell, ret. destruct (dec_Close flate d) as [e d'].
    exists e. split; reflexivity.
Qed.

(** X11. Content-Encoding deflate, and the peek succeeds: whichever of
    the three bodies DecompressBody leaves in the response, Close on it,
    in any state, calls nothing but Close on a decoder. The body the
    response came with is never closed through it: the rebuilt body is an
    io.NopCloser, and the two readers close their decoder only. *)
Theorem deflate_body_close_stays_above fuel res sh (b : state sh) bs b1 t :
  Header_Get (Header res) "Content-Encoding" = "deflate"%string ->
  Body res = existT sh b ->
  io_ReadFull fuel (Read sh) 2 b = (Some ((bs, None), b1), t) ->
  exists res',
    DecompressBody fuel res = (Some res', t)
    /\ forall (w : state (projT1 (Body res'))) e,
         In e (log_of (Close (projT1 (Body res')) w)) -> exists k, e = EDecClose k.
Proof.
  intros Hce Hb Hpeek.
  destruct (DecompressBody_deflate_peek fuel res Hce Hb Hpeek)
    as (h0 & h1 & Htake & Hz & Hr & Hn).
  destruct (Byte.byte_eq_dec h0 x78) as [H0 | H0].
  - destruct (in_dec Byte.byte_eq_dec h1 [x9c; x01; x5e; xda]) as [Hin | Hout].
    + eexists. split; [apply (Hz H0 Hin) |]. simpl. intros w e.
      unfold zlibDeflateReader_Close, call_Close, log_of.
      unfold bind, tell, ret.
      destruct w as [bw [d |] ew]; simpl; [| intros []].
      destruct (dec_Close zlib d). simpl.
      intros [<- | []]. eexists; reflexivity.
    + eexists. split; [apply (Hr H0 Hout) |]. simpl. intros w e.
      unfold deflateReader_Close, call_Close, log_of.
      unfold bind, tell, ret.
      destruct w as [bw [d |] ew]; simpl; [| intros []].
      destruct (dec_Close flate d). simpl.
      intros [<- | []]. eexists; reflexivity.
  - eexists. split; [apply (Hn H0) |]. simpl. intros w e [].
Qed.

(** X12. Content-Encoding gzip, br or zstd on a transport stream:
    closing the body DecompressBody has put in the response, without a
    Read before, closes the stream, returns what its Close returns, and
    constructs no decoder. *)
Theorem close_without_read fuel res (s0 : source) :
  Header_Get (Header res) "Content-Encoding" = "gzip"%string
  \/ Header_Get (Header res) "Content-Encoding" = "br"%string
  \/ Header_Get (Header res) "Content-Encoding" = "zstd"%string ->
  Body res = existT TSource s0 ->
  exists res' sh' (w' : state sh'),
    DecompressBody fuel res = (Some res', [])
    /\ Body res' = existT sh' w'
    /\ Close sh' w' = ((Returned (close_err s0), w'), [ESrcClose]).
Proof.
  intros [Hce | [Hce | Hce]] Hb.
  - rewrite (DecompressBody_gzip fuel res Hce Hb).
    exists (after_switch (set_Body res (existT (TGzip TSource) (fresh s0)))),
      (TGzip TSource), (fresh s0).
    repeat split.
  - rewrite (DecompressBody_br fuel res Hce Hb).
    exists (after_switch (set_Body res (existT (TBr TSource) (fresh s0)))),
      (TBr TSource), (fresh s0).
    repeat split.
  - rewrite (DecompressBody_zstd fuel res Hce Hb).
    exists (after_switch (set_Body res (existT (TZstd TSource) (fresh s0)))),
      (TZstd TSource), (fresh s0).
    repeat split.
Qed.

End Further.

(** * The further properties at work on the small instance *)

Lemma wrap_keeps_other_headers_witness :
  exists res',
    DecompressBody (C := toy) 0 (response_of "br" (stream_of [[x01]])) = (Some res', [])
    /\ forall key,
         key <> "Content-Encoding"%string -> key <> "Content-Length"%string ->
         Header res' !! key = Header (response_of (C := toy) "br" (stream_of [[x01]])) !! key.
Proof.
  apply (@wrap_keeps_other_headers toy 0 (response_of "br" (stream_of [[x01]]))).
  right. left. reflexivity.
Defined.

Lemma wrap_twice_is_wrap_once_witness :
  exists res',
    DecompressBody (C := toy) 0 (response_of "zstd" (stream_of [[x28]])) = (Some res', [])
    /\ DecompressBody (C := toy) 3 res' = (Some res', []).
Proof.
  apply (@wrap_twice_is_wrap_once toy 0 3 (response_of "zstd" (stream_of [[x28]]))).
  right. right. reflexivity.
Defined.

Lemma deflate_twice_rewraps_witness :
  exists res' h0 h1,
    DecompressBody (C := toy) 1 (response_of "deflate" (stream_of [[x1f; x8b; x01]]))
      = (Some res', [ESrcRead 2])
    /\ firstn 2 [x1f; x8b] = [h0; h1]
    /\ DecompressBody (C := toy) 1 res'
       = (Some (set_Body (response_of "deflate" (stream_of [[x1f; x8b; x01]]))
                  (existT (TNopCloserMulti (TNopCloserMulti TSource))
                     (MR2 (bytes_NewReader [h0; h1])
                        (MR2 {| s := [h0; h1]; i := 2 |} (stream_of [[x01]]))))), []).
Proof.
  apply (@deflate_twice_rewraps toy 1 0
           (response_of "deflate" (stream_of [[x1f; x8b; x01]]))
           TSource (stream_of [[x1f; x8b; x01]]) [x1f; x8b] (stream_of [[x01]])
           [ESrcRead 2]); try reflexivity.
  simpl. discriminate.
Defined.

Lemma peek_failure_drops_bytes_witness :
  DecompressBody (C := toy) 2 (response_of "deflate" (stream_of [[x78]]))
    = (Some (set_Body (response_of "deflate" (stream_of [[x78]]))
               (existT TSource (stream_of []))), [ESrcRead 2; ESrcRead 1])
  /\ length [x78] < 2
  /\ content (stream_of [[x78]]) = [x78] ++ content (stream_of []).
Proof.
  apply (@peek_failure_drops_bytes toy 2 (response_of "deflate" (stream_of [[x78]]))
           (stream_of [[x78]]) [x78] ErrUnexpectedEOF (stream_of [])
           [ESrcRead 2; ESrcRead 1]); reflexivity.
Defined.

Lemma deflate_empty_body_witness :
  DecompressBody (C := toy) 1 (response_of "deflate" (stream_of []))
  = (Some (response_of "deflate" (stream_of [])), [ESrcRead 2]).
Proof.
  apply (@deflate_empty_body toy 0 (response_of "deflate" (stream_of []))
           (stream_of [])); reflexivity.
Defined.

Lemma DecompressBody_returns_witness :
  exists res',
    fst (DecompressBody (C := toy) 3 (response_of "deflate" (stream_of [[]; [x78]])))
    = Some res'.
Proof.
  apply (@DecompressBody_returns toy 3 (response_of "deflate" (stream_of [[]; [x78]]))
           (stream_of [[]; [x78]])); [reflexivity | simpl; lia].
Defined.

Lemma reader_is_ready_or_failed_witness :
  (r (state_after (read_seq (zlibDeflateReader_Read (C := toy) source_Read) [4; 4]
                     (fresh (stream_of [[x00; x01]; [x02]])))) <> None
   /\ err (state_after (read_seq (zlibDeflateReader_Read (C := toy) source_Read) [4; 4]
                          (fresh (stream_of [[x00; x01]; [x02]])))) = None)
  \/ (r (state_after (read_seq (zlibDeflateReader_Read (C := toy) source_Read) [4; 4]
                        (fresh (stream_of [[x00; x01]; [x02]])))) = None
      /\ err (state_after (read_seq (zlibDeflateReader_Read (C := toy) source_Read) [4; 4]
                             (fresh (stream_of [[x00; x01]; [x02]])))) <> None).
Proof.
  apply (@reader_is_ready_or_failed toy source source_Read _ _ _
           (LR_zlib (C := toy) source_Read) (stream_of [[x00; x01]; [x02]]) 4 [4]).
Defined.

Lemma total_reader_never_fails_witness :
  r (state_after (read_seq (brReader_Read (C := toy) source_Read) [4; 4]
                    (fresh (stream_of [[x01]])))) <> None
  /\ err (state_after (read_seq (brReader_Read (C := toy) source_Read) [4; 4]
                         (fresh (stream_of [[x01]])))) = None.
Proof.
  apply (@total_reader_never_fails toy source source_Read _ _ _ _
           (TR_br (C := toy) source_Read) (stream_of [[x01]]) 4 [4]).
Defined.

Lemma decoder_is_read_on_every_Read_witness :
  (r (state_after (gzipReader_Read (C := toy) source_Read 4
                     (fresh (stream_of [[x1f; x8b]; [x01]])))) <> None ->
     count_DecRead KGzip
       (log_of (read_seq (gzipReader_Read (C := toy) source_Read) [4; 4; 4; 4]
                  (fresh (stream_of [[x1f; x8b]; [x01]])))) = 4)
  /\ (r (state_after (gzipReader_Read (C := toy) source_Read 4
                        (fresh (stream_of [[x1f; x8b]; [x01]])))) = None ->
     count_DecRead KGzip
       (log_of (read_seq (gzipReader_Read (C := toy) source_Read) [4; 4; 4; 4]
                  (fresh (stream_of [[x1f; x8b]; [x01]])))) = 0).
Proof.
  apply (@decoder_is_read_on_every_Read toy source source_Read _ _ _
           (LR_gzip (C := toy) source_Read) (source_Read_silent KGzip)
           (stream_of [[x1f; x8b]; [x01]]) 4 [4; 4; 4]).
Defined.

Lemma close_after_read_witness :
  exists msg,
    fst (fst (zlibDeflateReader_Close (C := toy)
                (state_after (read_seq (zlibDeflateReader_Read (C := toy) source_Read) [4; 4]
                                (fresh (stream_of [[x00; x01]; [x02]]))))))
    = Panicked msg.
Proof.
  apply (proj1 (@close_after_read toy source source_Read)
           (stream_of [[x00; x01]; [x02]]) (ErrOther "zlib: invalid header")
           (stream_of [[x02]]) [ESrcRead 2] 4 [4]).
  reflexivity.
Defined.

Lemma deflate_body_close_stays_above_witness :
  exists res',
    DecompressBody (C := toy) 1 (response_of "deflate" (stream_of [[x78; x9c; x01]]))
      = (Some res', [ESrcRead 2])
    /\ forall (w : state (C := toy) (projT1 (Body res'))) e,
         In e (log_of (Close (projT1 (Body res')) w)) -> exists k, e = EDecClose k.
Proof.
  apply (@deflate_body_close_stays_above toy 1
           (response_of "deflate" (stream_of [[x78; x9c; x01]]))
           TSource (stream_of [[x78; x9c; x01]]) [x78; x9c] (stream_of [[x01]])
           [ESrcRead 2]); reflexivity.
Defined.

Lemma close_without_read_witness :
  exists res' sh' (w' : state (C := toy) sh'),
    DecompressBody (C := toy) 0 (response_of "gzip" (stream_of [[x1f; x8b]])) = (Some res', [])
    /\ Body res' = existT sh' w'
    /\ Close sh' w' = ((Returned None, w'), [ESrcClose]).
Proof.
  apply (@close_without_read toy 0 (response_of "gzip" (stream_of [[x1f; x8b]]))
           (stream_of [[x1f; x8b]])); [left |]; reflexivity.
Defined.

(** The decoder is read again after it has returned io.EOF: the reader
    records nothing. *)
Example read_after_EOF_run :
  fst (fst (read_seq (Read (C := toy) (TGzip TSource)) [4; 4; 4]
              (fresh (stream_of [[x1f; x8b]]))))
  = [([], Some EOF); ([], Some EOF); ([], Some EOF)]
  /\ log_of (read_seq (Read (C := toy) (TGzip TSource)) [4; 4; 4]
               (fresh (stream_of [[x1f; x8b]])))
     = [ENew KGzip; ESrcRead 2; EDecRead KGzip 4; ESrcRead 4;
        EDecRead KGzip 4; ESrcRead 4; EDecRead KGzip 4; ESrcRead 4].
Proof. split; reflexivity. Qed.
